(** * The gRPC plugin server bootstrap of go-plugin (grpc_server.go)

    A shallow embedding of [DefaultGRPCServer], [GRPCServer.Init],
    [GRPCServer.Config] and of the
    library routines they call ([fmt.Errorf] with the verbs [%q] and [%s],
    [strconv.Quote], [encoding/json]'s encoder for strings and structs,
    [unicode/utf8]), followed by the properties of the bootstrap.

    Go strings are byte sequences: they are modelled as [list ascii]. A
    method of the bootstrap is a function from the bootstrap to a [Run]: the
    bootstrap afterwards, the calls made to the collaborators (the server
    factory, the plugins) and the outcome, a returned value or a panic. The
    order in which [range] visits the plugins map is an argument of [Init],
    and the properties hold for every order. [GRPCServer.Serve], which starts
    a goroutine and waits on a channel, is not modelled. *)

From Stdlib Require Import ZArith List Ascii String Bool Lia Permutation.
From stdpp Require Import base gmap strings list.
Import ListNotations.

Abbreviation gostring := (list ascii).

(** A string literal of the source, as a byte sequence. *)
Definition str (s : string) : gostring := list_ascii_of_string s.

(** The double quote (0x22) and the backslash (0x5C). *)
Definition DQ : ascii := ascii_of_nat 34.
Definition BS : ascii := ascii_of_nat 92.

(** The line feed (0x0A). *)
Definition LF : ascii := ascii_of_nat 10.

(** The numeric value of a byte, and Go's conversion [byte(x)], which keeps
    the low eight bits. *)
Definition byteZ (b : ascii) : Z := Z.of_N (N_of_ascii b).
Definition Zbyte (z : Z) : ascii := ascii_of_N (Z.to_N (z mod 256)).

(** The hexadecimal digit of a number below sixteen: the table [hex] of
    encoding/json and [lowerhex] of strconv. *)
Definition hex (z : Z) : ascii :=
  nth (Z.to_nat z) (str "0123456789abcdef") "0"%char.

(** [strings.HasPrefix(s, prefix)] and [strings.Contains(s, substr)]. *)
Fixpoint HasPrefix (s prefix : gostring) {struct prefix} : bool :=
  match prefix, s with
  | [], _ => true
  | _ :: _, [] => false
  | p :: prefix', c :: s' => if Ascii.eqb c p then HasPrefix s' prefix' else false
  end.

Fixpoint Contains (s substr : gostring) : bool :=
  HasPrefix s substr ||
  match s with
  | [] => false
  | _ :: s' => Contains s' substr
  end.

(** ** unicode/utf8 *)
Module utf8.
Local Open Scope Z_scope.

Definition RuneError : Z := 0xFFFD.
Definition RuneSelf : Z := 0x80.
Definition MaxRune : Z := 0x10FFFF.
Definition surrogateMin : Z := 0xD800.
Definition surrogateMax : Z := 0xDFFF.

Definition tx : Z := 0x80.
Definition t2 : Z := 0xC0.
Definition t3 : Z := 0xE0.
Definition t4 : Z := 0xF0.
Definition maskx : Z := 0x3F.
Definition mask2 : Z := 0x1F.
Definition mask3 : Z := 0x0F.
Definition mask4 : Z := 0x07.
Definition rune1Max : Z := 0x7F.
Definition rune2Max : Z := 0x7FF.
Definition rune3Max : Z := 0xFFFF.
Definition locb : Z := 0x80.
Definition hicb : Z := 0xBF.

(** The entries of the table [first]: the size of the sequence in the low
    three bits, the index into [acceptRanges] in the high four. *)
Definition xx : Z := 0xF1.
Definition as_ : Z := 0xF0.
Definition s1 : Z := 0x02.
Definition s2 : Z := 0x13.
Definition s3 : Z := 0x03.
Definition s4 : Z := 0x23.
Definition s5 : Z := 0x34.
Definition s6 : Z := 0x04.
Definition s7 : Z := 0x44.

(** [first[b]], the table written out by ranges of its index. *)
Definition first (b : Z) : Z :=
  if b <? 0x80 then as_
  else if b <? 0xC2 then xx
  else if b <? 0xE0 then s1
  else if b =? 0xE0 then s2
  else if b <? 0xED then s3
  else if b =? 0xED then s4
  else if b <? 0xF0 then s3
  else if b =? 0xF0 then s5
  else if b <? 0xF4 then s6
  else if b =? 0xF4 then s7
  else xx.

(** [acceptRanges[i]] as the pair (lo, hi); the array has sixteen entries,
    those past the fifth are zero. *)
Definition acceptRanges (i : Z) : Z * Z :=
  match i with
  | 0 => (locb, hicb)
  | 1 => (0xA0, hicb)
  | 2 => (locb, 0x9F)
  | 3 => (0x90, hicb)
  | 4 => (locb, 0x8F)
  | _ => (0, 0)
  end.

(** [utf8.DecodeRuneInString]: the first rune of [s] and its width in
    bytes; [(RuneError, 0)] on the empty string and [(RuneError, 1)] on an
    invalid encoding. For the one-byte case the source selects between
    [rune(s[0])] and [RuneError] with the mask [rune(x) << 31 >> 31], all
    ones when [x] is odd ([xx]) and zero when it is even ([as]). *)
Definition DecodeRuneInString (s : gostring) : Z * nat :=
  match s with
  | [] => (RuneError, 0%nat)
  | c0 :: r0 =>
    let b0 := byteZ c0 in
    let x := first b0 in
    if as_ <=? x then ((if Z.odd x then RuneError else b0), 1%nat)
    else
      let sz := Z.to_nat (Z.land x 7) in
      let accept := acceptRanges (Z.shiftr x 4) in
      if (length s <? sz)%nat then (RuneError, 1%nat)
      else
        match r0 with
        | [] => (RuneError, 1%nat)
        | c1 :: r1 =>
          let b1 := byteZ c1 in
          if (b1 <? fst accept) || (snd accept <? b1) then (RuneError, 1%nat)
          else if (sz <=? 2)%nat then
            (Z.lor (Z.shiftl (Z.land b0 mask2) 6) (Z.land b1 maskx), 2%nat)
          else
            match r1 with
            | [] => (RuneError, 1%nat)
            | c2 :: r2 =>
              let b2 := byteZ c2 in
              if (b2 <? locb) || (hicb <? b2) then (RuneError, 1%nat)
              else if (sz <=? 3)%nat then
                (Z.lor (Z.lor (Z.shiftl (Z.land b0 mask3) 12)
                              (Z.shiftl (Z.land b1 maskx) 6))
                       (Z.land b2 maskx), 3%nat)
              else
                match r2 with
                | [] => (RuneError, 1%nat)
                | c3 :: _ =>
                  let b3 := byteZ c3 in
                  if (b3 <? locb) || (hicb <? b3) then (RuneError, 1%nat)
                  else
                    (Z.lor (Z.lor (Z.lor (Z.shiftl (Z.land b0 mask4) 18)
                                         (Z.shiftl (Z.land b1 maskx) 12))
                                  (Z.shiftl (Z.land b2 maskx) 6))
                           (Z.land b3 maskx), 4%nat)
                end
            end
        end
  end.

(** [utf8.ValidRune]. *)
Definition ValidRune (r : Z) : bool :=
  ((0 <=? r) && (r <? surrogateMin)) || ((surrogateMax <? r) && (r <=? MaxRune)).

(** [utf8.AppendRune(nil, r)] (the bytes [utf8.EncodeRune] writes): runes
    out of range and surrogates are written as [RuneError]. The source
    switches on [uint32(r)], so a negative rune is out of range. *)
Definition AppendRune (r : Z) : gostring :=
  if (0 <=? r) && (r <=? rune1Max) then [Zbyte r]
  else if (0 <=? r) && (r <=? rune2Max) then
    [Zbyte (Z.lor t2 (Z.shiftr r 6)); Zbyte (Z.lor tx (Z.land r maskx))]
  else
    let r :=
      if (r <? 0) || (MaxRune <? r) || ((surrogateMin <=? r) && (r <=? surrogateMax))
      then RuneError else r in
    if r <=? rune3Max then
      [Zbyte (Z.lor t3 (Z.shiftr r 12));
       Zbyte (Z.lor tx (Z.land (Z.shiftr r 6) maskx));
       Zbyte (Z.lor tx (Z.land r maskx))]
    else
      [Zbyte (Z.lor t4 (Z.shiftr r 18));
       Zbyte (Z.lor tx (Z.land (Z.shiftr r 12) maskx));
       Zbyte (Z.lor tx (Z.land (Z.shiftr r 6) maskx));
       Zbyte (Z.lor tx (Z.land r maskx))].

(** [utf8.ValidString]: scanning [s] rune by rune never meets an invalid
    encoding. The fuel bounds the number of runes; [length s] is enough. *)
Fixpoint validFrom (fuel : nat) (s : gostring) : bool :=
  match fuel, s with
  | _, [] => true
  | O, _ :: _ => false
  | S fuel', _ :: _ =>
    let '(r, size) := DecodeRuneInString s in
    if (r =? RuneError) && (size =? 1)%nat then false
    else validFrom fuel' (skipn size s)
  end.

Definition ValidString (s : gostring) : bool := validFrom (length s) s.

End utf8.

(** ** strconv *)
Module strconv.
Section Tables.
Local Open Scope Z_scope.

(** [IsPrint] beyond Latin-1 is a binary search in the tables [isPrint16],
    [isNotPrint16], [isPrint32] and [isNotPrint32] of the Go distribution;
    the tables are taken as a parameter. *)
Variable isPrintTable : Z -> bool.

(** [strconv.IsPrint]. *)
Definition IsPrint (r : Z) : bool :=
  if r <=? 0xFF then
    if (0x20 <=? r) && (r <=? 0x7E) then true
    else if (0xA1 <=? r) && (r <=? 0xFF) then negb (r =? 0xAD)
    else false
  else isPrintTable r.

(** The digits [lowerhex[r>>s & 0xF]] for [s] from [4 * (n - 1)] down to 0. *)
Fixpoint hexDigits (n : nat) (r : Z) : gostring :=
  match n with
  | O => []
  | S n' => hex (Z.land (Z.shiftr r (4 * Z.of_nat n')) 0xF) :: hexDigits n' r
  end.

(** [appendEscapedRune(nil, r, quote, false, false)], the flags as
    [strconv.Quote] passes them. *)
Definition appendEscapedRune (r : Z) (quote : Z) : gostring :=
  if (r =? quote) || (r =? byteZ BS) then [BS; Zbyte r]
  else if IsPrint r then utf8.AppendRune r
  else if r =? 7 then str "\a"
  else if r =? 8 then str "\b"
  else if r =? 12 then str "\f"
  else if r =? 10 then str "\n"
  else if r =? 13 then str "\r"
  else if r =? 9 then str "\t"
  else if r =? 11 then str "\v"
  else if (r <? 0x20) || (r =? 0x7F) then
    str "\x" ++ [hex (Z.shiftr (byteZ (Zbyte r)) 4); hex (Z.land (byteZ (Zbyte r)) 0xF)]
  else if negb (utf8.ValidRune r) then str "\u" ++ hexDigits 4 0xFFFD
  else if r <? 0x10000 then str "\u" ++ hexDigits 4 r
  else str "\U" ++ hexDigits 8 r.

(** The loop of [appendQuotedWith]: one rune of [s] per iteration. *)
Fixpoint quoteLoop (fuel : nat) (s : gostring) (quote : Z) : gostring :=
  match fuel, s with
  | _, [] => []
  | O, _ :: _ => []
  | S fuel', c :: _ =>
    let b := byteZ c in
    let '(r, width) :=
      if utf8.RuneSelf <=? b then utf8.DecodeRuneInString s else (b, 1%nat) in
    (if (width =? 1)%nat && (r =? utf8.RuneError)
     then str "\x" ++ [hex (Z.shiftr b 4); hex (Z.land b 0xF)]
     else appendEscapedRune r quote)
    ++ quoteLoop fuel' (skipn width s) quote
  end.

(** [strconv.Quote]. *)
Definition Quote (s : gostring) : gostring :=
  DQ :: quoteLoop (length s) s (byteZ DQ) ++ [DQ].

End Tables.
End strconv.

(** ** fmt *)
Module fmt.
Section Tables.
Variable isPrintTable : Z -> bool.

(** An operand of a formatting call: a string, or a non-nil error given by
    the text its [Error] method returns. *)
Inductive operand :=
| OpString (s : gostring)
| OpError (msg : gostring).

(** The verbs the source uses: [%q] on a string is [strconv.Quote], [%s]
    prints a string as it is and an error through its [Error] method. *)
Definition printVerb (verb : ascii) (a : operand) : gostring :=
  match a with
  | OpString s =>
    if Ascii.eqb verb "q" then strconv.Quote isPrintTable s else s
  | OpError msg =>
    if Ascii.eqb verb "q" then strconv.Quote isPrintTable msg else msg
  end.

(** [fmt.Sprintf] for formats whose verbs are [%q] and [%s], one operand
    per verb. *)
Fixpoint Sprintf (format : gostring) (a : list operand) : gostring :=
  match format with
  | [] => []
  | c :: rest =>
    if Ascii.eqb c "%" then
      match rest, a with
      | verb :: rest', x :: a' => printVerb verb x ++ Sprintf rest' a'
      | _, _ => c :: Sprintf rest a
      end
    else c :: Sprintf rest a
  end.

(** [fmt.Errorf]: the error whose text is the formatted string. *)
Definition Errorf (format : gostring) (a : list operand) : gostring :=
  Sprintf format a.

End Tables.
End fmt.

(** ** encoding/json, the encoder *)
Module json.
Local Open Scope Z_scope.

(** [htmlSafeSet[b]] and [safeSet[b]] for an ASCII byte: the bytes that
    are copied without escaping. *)
Definition safeSet (b : Z) : bool :=
  (0x20 <=? b) && (b <? 0x80) && negb (b =? 0x22) && negb (b =? 0x5C).

Definition htmlSafeSet (b : Z) : bool :=
  safeSet b && negb (b =? 0x26) && negb (b =? 0x3C) && negb (b =? 0x3E).

(** The escape written for an ASCII byte that is not in the safe set, as in
    the switch of [appendString]. (Releases of Go before 1.22 have no case
    for the backspace and the form feed and write them as [\u0008] and
    [\u000c]; the decoder reads both forms as the same byte.) *)
Definition escapeByte (b : Z) : gostring :=
  if (b =? 0x5C) || (b =? 0x22) then [BS; Zbyte b]
  else if b =? 8 then str "\b"
  else if b =? 12 then str "\f"
  else if b =? 10 then str "\n"
  else if b =? 13 then str "\r"
  else if b =? 9 then str "\t"
  else str "\u00" ++ [hex (Z.shiftr b 4); hex (Z.land b 0xF)].

(** The loop of [appendString]: the source copies the runs of unescaped
    bytes [src[start:i]] in one piece, here they are emitted byte by byte. *)
Fixpoint appendStringLoop (fuel : nat) (src : gostring) (escapeHTML : bool) : gostring :=
  match fuel, src with
  | _, [] => []
  | O, _ :: _ => []
  | S fuel', c :: rest =>
    let b := byteZ c in
    if b <? utf8.RuneSelf then
      (if htmlSafeSet b || (negb escapeHTML && safeSet b) then [c] else escapeByte b)
      ++ appendStringLoop fuel' rest escapeHTML
    else
      let '(r, size) := utf8.DecodeRuneInString src in
      if (r =? utf8.RuneError) && (size =? 1)%nat then
        str "\ufffd" ++ appendStringLoop fuel' (skipn size src) escapeHTML
      else if (r =? 0x2028) || (r =? 0x2029) then
        str "\u202" ++ [hex (Z.land r 0xF)]
        ++ appendStringLoop fuel' (skipn size src) escapeHTML
      else
        firstn size src ++ appendStringLoop fuel' (skipn size src) escapeHTML
  end.

(** [appendString(nil, src, escapeHTML)]: [src] as a JSON string literal. *)
Definition appendString (src : gostring) (escapeHTML : bool) : gostring :=
  DQ :: appendStringLoop (length src) src escapeHTML ++ [DQ].

#[local] Set Warnings "-register-all".

(** The Go values the encoder is modelled on: strings, booleans, structs
    given by their fields in declaration order, each with the key its
    [json] tag names, and two of the kinds the encoder does not support. *)
Inductive Value :=
| VString (s : gostring)
| VBool (b : bool)
| VStruct (fields : list (gostring * Value))
| VChan
| VFunc.

Inductive Error :=
| UnsupportedTypeError (v : Value).

Inductive Encoded :=
| EncOk (b : gostring)
| EncErr (e : Error).

(** The key of a struct field as the encoder has precomputed it, the name
    between quotes and a colon. (For a name with [<], [>] or [&] the source
    would escape those; the keys of this program have none.) *)
Definition fieldKey (name : gostring) : gostring :=
  DQ :: name ++ [DQ; ":"%char].

(** [encodeState.reflectValue]: the JSON text of a value, or the error of
    [unsupportedTypeEncoder]. A struct is written as in [structEncoder]:
    [next] is the byte before the next field, an open brace at first and a
    comma afterwards. *)
Fixpoint reflectValue (v : Value) (escapeHTML : bool) : Encoded :=
  match v with
  | VString s => EncOk (appendString s escapeHTML)
  | VBool b => EncOk (str (if b then "true" else "false"))
  | VStruct fields =>
    (fix fieldLoop (fs : list (gostring * Value)) (next : ascii) : Encoded :=
       match fs with
       | [] => EncOk (if Ascii.eqb next "{" then str "{}" else str "}")
       | (name, fv) :: fs' =>
         match reflectValue fv escapeHTML with
         | EncErr e => EncErr e
         | EncOk b =>
           match fieldLoop fs' ","%char with
           | EncErr e => EncErr e
           | EncOk bs => EncOk (next :: fieldKey name ++ b ++ bs)
           end
         end
       end) fields "{"%char
  | VChan => EncErr (UnsupportedTypeError VChan)
  | VFunc => EncErr (UnsupportedTypeError VFunc)
  end.

(** [json.NewEncoder(&buf).Encode(v)] on a [bytes.Buffer] holding [buf]:
    the buffer afterwards and the error returned. The encoder escapes HTML
    by default, ends the value with a newline, and writes nothing when the
    value cannot be marshalled; a [bytes.Buffer] write returns no error. *)
Definition Encode (buf : gostring) (v : Value) : gostring * option Error :=
  match reflectValue v true with
  | EncErr e => (buf, Some e)
  | EncOk b => (buf ++ b ++ [LF], None)
  end.

(** *** The decoder, for objects whose members are strings

    What [json.Unmarshal] does on the JSON texts a reader of the handshake
    configuration meets: an object whose member values are string literals.
    Other JSON values are outside this fragment and are refused here. *)

(** The white space the scanner skips. *)
Definition isSpace (c : ascii) : bool :=
  let b := byteZ c in
  (b =? 0x20) || (b =? 9) || (b =? 13) || (b =? 10).

Fixpoint skipSpace (s : gostring) : gostring :=
  match s with
  | c :: rest => if isSpace c then skipSpace rest else s
  | [] => []
  end.

(** The value of a hexadecimal digit, as in the loop of [getu4]. *)
Definition hexValue (c : ascii) : option Z :=
  let b := byteZ c in
  if (0x30 <=? b) && (b <=? 0x39) then Some (b - 0x30)
  else if (0x61 <=? b) && (b <=? 0x66) then Some (b - 0x61 + 10)
  else if (0x41 <=? b) && (b <=? 0x46) then Some (b - 0x41 + 10)
  else None.

(** [getu4]: the rune of a [\u] escape with four hexadecimal digits at the
    start of [s], or -1. *)
Definition getu4 (s : gostring) : Z :=
  match s with
  | c0 :: c1 :: h1 :: h2 :: h3 :: h4 :: _ =>
    if Ascii.eqb c0 BS && Ascii.eqb c1 "u" then
      match hexValue h1, hexValue h2, hexValue h3, hexValue h4 with
      | Some d1, Some d2, Some d3, Some d4 => ((d1 * 16 + d2) * 16 + d3) * 16 + d4
      | _, _, _, _ => -1
      end
    else -1
  | _ => -1
  end.

(** [utf16.IsSurrogate] and [utf16.DecodeRune]. *)
Definition utf16_IsSurrogate (r : Z) : bool := (0xD800 <=? r) && (r <? 0xE000).

Definition utf16_DecodeRune (r1 r2 : Z) : Z :=
  if (0xD800 <=? r1) && (r1 <? 0xDC00) && (0xDC00 <=? r2) && (r2 <? 0xE000)
  then Z.lor (Z.shiftl (r1 - 0xD800) 10) (r2 - 0xDC00) + 0x10000
  else utf8.RuneError.

(** The byte a two-character escape stands for; the scanner accepts these
    and [\u] only. *)
Definition simpleEscape (c : ascii) : option ascii :=
  let b := byteZ c in
  if (b =? 0x22) || (b =? 0x5C) || (b =? 0x2F) then Some c
  else if b =? 0x62 then Some (ascii_of_nat 8)
  else if b =? 0x66 then Some (ascii_of_nat 12)
  else if b =? 0x6E then Some (ascii_of_nat 10)
  else if b =? 0x72 then Some (ascii_of_nat 13)
  else if b =? 0x74 then Some (ascii_of_nat 9)
  else None.

Definition consume (out : gostring) (k : option (gostring * gostring))
  : option (gostring * gostring) :=
  match k with
  | Some (t, rest) => Some (out ++ t, rest)
  | None => None
  end.

(** The scanner's string state and [unquoteBytes] in one pass, from the byte
    after the opening quote: the decoded string and the input after the
    closing quote. A control character, an unknown escape or the end of the
    input inside the literal is an error; a surrogate half without its pair
    and an invalid UTF-8 sequence are replaced by U+FFFD. *)
Fixpoint unquoteLoop (fuel : nat) (s : gostring) : option (gostring * gostring) :=
  match fuel, s with
  | O, _ => None
  | _, [] => None
  | S fuel', c :: rest =>
    let b := byteZ c in
    if b =? 0x22 then Some ([], rest)
    else if b =? 0x5C then
      match rest with
      | [] => None
      | e :: rest' =>
        if Ascii.eqb e "u" then
          let rr := getu4 s in
          if rr <? 0 then None
          else
            let s6 := skipn 6 s in
            if utf16_IsSurrogate rr then
              let dec := utf16_DecodeRune rr (getu4 s6) in
              if negb (dec =? utf8.RuneError)
              then consume (utf8.AppendRune dec) (unquoteLoop fuel' (skipn 6 s6))
              else consume (utf8.AppendRune utf8.RuneError) (unquoteLoop fuel' s6)
            else consume (utf8.AppendRune rr) (unquoteLoop fuel' s6)
        else
          match simpleEscape e with
          | Some x => consume [x] (unquoteLoop fuel' rest')
          | None => None
          end
      end
    else if b <? 0x20 then None
    else if b <? utf8.RuneSelf then consume [c] (unquoteLoop fuel' rest)
    else
      let '(rr, size) := utf8.DecodeRuneInString s in
      consume (utf8.AppendRune rr) (unquoteLoop fuel' (skipn size s))
  end.

(** A string literal at the start of [s]. *)
Definition parseString (s : gostring) : option (gostring * gostring) :=
  match s with
  | c :: rest => if Ascii.eqb c DQ then unquoteLoop (length rest) rest else None
  | [] => None
  end.

(** The members of an object, from the first key on, up to the closing
    brace: the pairs in the order of the text and the input that follows. *)
Fixpoint parseMembers (fuel : nat) (s : gostring)
  : option (list (gostring * gostring) * gostring) :=
  match fuel with
  | O => None
  | S fuel' =>
    match parseString s with
    | None => None
    | Some (key, s1) =>
      match skipSpace s1 with
      | c1 :: s2 =>
        if Ascii.eqb c1 ":" then
          match parseString (skipSpace s2) with
          | None => None
          | Some (val, s3) =>
            match skipSpace s3 with
            | c3 :: s4 =>
              if Ascii.eqb c3 "," then
                match parseMembers fuel' (skipSpace s4) with
                | Some (ms, rest) => Some ((key, val) :: ms, rest)
                | None => None
                end
              else if Ascii.eqb c3 "}" then Some ([(key, val)], s4)
              else None
            | [] => None
            end
          end
        else None
      | [] => None
      end
    end
  end.

Definition parseObject (s : gostring) : option (list (gostring * gostring) * gostring) :=
  match skipSpace s with
  | c :: s1 =>
    if Ascii.eqb c "{" then
      match skipSpace s1 with
      | c' :: s2 =>
        if Ascii.eqb c' "}" then Some ([], s2)
        else parseMembers (length (c' :: s2)) (c' :: s2)
      | [] => None
      end
    else None
  | [] => None
  end.

(** The members of the one JSON object that makes up [data], white space
    around it allowed. *)
Definition UnmarshalObject (data : gostring) : option (list (gostring * gostring)) :=
  match parseObject data with
  | Some (ms, rest) =>
    match skipSpace rest with
    | [] => Some ms
    | _ :: _ => None
    end
  | None => None
  end.

End json.

(** ** Package plugin: grpc_server.go *)

(** A Go [error]: [None] is nil, [Some msg] an error whose [Error] method
    returns [msg]. *)
Definition error : Type := option gostring.

(** [GRPCServerConfig], with the keys of its [json] tags. *)
Record GRPCServerConfig := {
  StdoutAddr : gostring;
  StderrAddr : gostring
}.

(** The value the encoder sees for a [GRPCServerConfig]: a struct of two
    string fields tagged [stdout_addr] and [stderr_addr], in this order. *)
Definition GRPCServerConfig_value (c : GRPCServerConfig) : json.Value :=
  json.VStruct [(str "stdout_addr", json.VString (StdoutAddr c));
                (str "stderr_addr", json.VString (StderrAddr c))].

(** What [json.Unmarshal] stores into a zero [GRPCServerConfig]: each member
    whose key is the tag of a field sets that field, the later one winning;
    other members are skipped. *)
Definition setField (c : GRPCServerConfig) (m : gostring * gostring) : GRPCServerConfig :=
  if decide (fst m = str "stdout_addr")
  then {| StdoutAddr := snd m; StderrAddr := StderrAddr c |}
  else if decide (fst m = str "stderr_addr")
  then {| StdoutAddr := StdoutAddr c; StderrAddr := snd m |}
  else c.

(** Modelled from the spec: the reader of the handshake configuration, which
    is not in grpc_server.go. The spec has it decode the payload and parse
    the structured record; [Config] returns the JSON text itself, so the
    payload is read by [json.Unmarshal] into a zero [GRPCServerConfig]. *)
Definition decodeConfig (payload : gostring) : option GRPCServerConfig :=
  match json.UnmarshalObject payload with
  | Some ms => Some (fold_left setField ms {| StdoutAddr := []; StderrAddr := [] |})
  | None => None
  end.

(** Why a call panicked. *)
Inductive PanicCause :=
| NilFunction
| EncodeFailed (e : json.Error).

(** How a call ended: it returned a value or it panicked. *)
Inductive Outcome (A : Type) :=
| Returned (a : A)
| Panicked (cause : PanicCause).
Arguments Returned {A} a.
Arguments Panicked {A} cause.

Section Bootstrap.

(** The collaborators' types: the state of a [grpc.Server] object, a
    [tls.Config], the done channel and the readers. *)
Context {Srv TLSConfig Chan Reader : Type}.

(** The tables of [strconv.IsPrint], which [fmt.Errorf] consults for [%q]. *)
Variable isPrintTable : Z -> bool.

(** [credentials.NewTLS(c)] and [grpc.Creds(creds)]. *)
Inductive TransportCredentials :=
| NewTLS (c : TLSConfig).

Inductive ServerOption :=
| Creds (creds : TransportCredentials).

(** A value that implements [GRPCPlugin]: its method [GRPCServer], which
    takes a [grpc.Server] pointer and returns an [error]. Called on a server
    object it may change the object (it registers its services) and returns
    an error or nil; called on the nil pointer there is no object to change. *)
Record GRPCPlugin := {
  GRPCServer_method : Srv -> Srv * error;
  GRPCServer_method_nil : error
}.

(** A value of the interface type [Plugin]: its dynamic type implements
    [GRPCPlugin] or not (the nil interface value does not). *)
Inductive Plugin :=
| OtherPlugin
| ImplementsGRPC (p : GRPCPlugin).

(** The type assertion [raw.(GRPCPlugin)] in its two-result form. *)
Definition assertGRPCPlugin (raw : Plugin) : option GRPCPlugin :=
  match raw with
  | ImplementsGRPC p => Some p
  | OtherPlugin => None
  end.

(** [p.GRPCServer(ptr)]: the server pointer is nil ([None]) or points to the
    one server object of the bootstrap, whose state the call updates. *)
Definition callGRPCServer (p : GRPCPlugin) (ptr : option Srv) : option Srv * error :=
  match ptr with
  | None => (None, GRPCServer_method_nil p)
  | Some srv => let '(srv', err) := GRPCServer_method p srv in (Some srv', err)
  end.

(** The struct [GRPCServer]. A nil [Server] function and a nil [TLS] pointer
    are [None]; [server] is the pointer to the server object together with
    the object's current state. *)
Record GRPCServer := {
  Plugins : gmap gostring Plugin;
  Server : option (list ServerOption -> option Srv);
  TLS : option TLSConfig;
  DoneCh : Chan;
  Stdout : Reader;
  Stderr : Reader;
  config : GRPCServerConfig;
  server : option Srv
}.

Definition set_server (s : GRPCServer) (ptr : option Srv) : GRPCServer :=
  {| Plugins := Plugins s; Server := Server s; TLS := TLS s; DoneCh := DoneCh s;
     Stdout := Stdout s; Stderr := Stderr s; config := config s; server := ptr |}.

(** The calls a method makes to its collaborators, in order: the server
    factory with its options, and the [GRPCServer] method of the plugin
    registered under a name. *)
Inductive Call :=
| CallServer (opts : list ServerOption)
| CallGRPCServer (name : gostring).

(** A run of a method: the bootstrap afterwards, the calls made, and the
    outcome. *)
Record Run (A : Type) := {
  after : GRPCServer;
  calls : list Call;
  outcome : Outcome A
}.
Arguments after {A} r.
Arguments calls {A} r.
Arguments outcome {A} r.

(** Lines 60 to 63: the options handed to the server factory. *)
Definition serverOptions (tls : option TLSConfig) : list ServerOption :=
  let opts := [] in
  match tls with
  | Some c => opts ++ [Creds (NewTLS c)]
  | None => opts
  end.

(** Lines 67 to 78: the loop over [s.Plugins], in the order [entries] in
    which [range] yields the map's entries, and the return that follows it.
    The result is the server pointer (with the object's state), the calls
    made and the error returned. *)
Fixpoint registerPlugins (ptr : option Srv) (entries : list (gostring * Plugin))
  : option Srv * list Call * error :=
  match entries with
  | [] => (ptr, [], None)
  | (k, raw) :: rest =>
    match assertGRPCPlugin raw with
    | None =>
      (ptr, [],
       Some (fmt.Errorf isPrintTable (str "%q is not a GRPC-compatibile plugin")
                        [fmt.OpString k]))
    | Some p =>
      let '(ptr', err) := callGRPCServer p ptr in
      match err with
      | Some e =>
        (ptr', [CallGRPCServer k],
         Some (fmt.Errorf isPrintTable (str "error registring %q: %s")
                          [fmt.OpString k; fmt.OpError e]))
      | None =>
        let '(ptr'', cs, res) := registerPlugins ptr' rest in
        (ptr'', CallGRPCServer k :: cs, res)
      end
    end
  end.

(** [range] over a Go map yields every entry once, in an order the language
    leaves open: any permutation of the entries is a possible order. *)
Definition rangeOrder (m : gmap gostring Plugin) (entries : list (gostring * Plugin)) : Prop :=
  entries ≡ₚ map_to_list m.

(** [(s *GRPCServer) Init() error], for the order [entries] in which the
    loop visits [s.Plugins]. Calling a nil [s.Server] panics before
    [s.server] is assigned. The first [if s.TLS != nil] of the source has an
    empty body. *)
Definition Init (s : GRPCServer) (entries : list (gostring * Plugin)) : Run error :=
  let opts := serverOptions (TLS s) in
  match Server s with
  | None => {| after := s; calls := []; outcome := Panicked NilFunction |}
  | Some newServer =>
    let s1 := set_server s (newServer opts) in
    let '(ptr, cs, err) := registerPlugins (server s1) entries in
    {| after := set_server s1 ptr; calls := CallServer opts :: cs;
       outcome := Returned err |}
  end.

(** [(s *GRPCServer) Config() string]: the buffer is local to the call; a
    failed encoding panics with the encoder's error. *)
Definition Config (s : GRPCServer) : Run gostring :=
  let buf := [] in
  match json.Encode buf (GRPCServerConfig_value (config s)) with
  | (_, Some err) => {| after := s; calls := []; outcome := Panicked (EncodeFailed err) |}
  | (buf', None) => {| after := s; calls := []; outcome := Returned buf' |}
  end.

End Bootstrap.

Arguments GRPCPlugin : clear implicits.
Arguments Plugin : clear implicits.
Arguments GRPCServer : clear implicits.
Arguments ServerOption : clear implicits.
Arguments TransportCredentials : clear implicits.
Arguments Call : clear implicits.
Arguments Run : clear implicits.
Arguments after {Srv TLSConfig Chan Reader A} r.
Arguments calls {Srv TLSConfig Chan Reader A} r.
Arguments outcome {Srv TLSConfig Chan Reader A} r.

Section DefaultFactory.

Context {Srv TLSConfig : Type}.

(** [grpc.NewServer(opts...)], the constructor of the grpc library: it
    allocates a server object configured by the options. The state of the
    new object is taken as a parameter. *)
Variable NewServer : list (ServerOption TLSConfig) -> Srv.

(** [DefaultGRPCServer], lines 17 to 19: the pointer to the server that
    [grpc.NewServer] allocates, which is not nil. *)
Definition DefaultGRPCServer (opts : list (ServerOption TLSConfig)) : option Srv :=
  Some (NewServer opts).

End DefaultFactory.

(** ** Vocabulary of the properties *)

(** A byte that is not a control character. *)
Definition printable (c : ascii) : Prop := (0x20 <= byteZ c)%Z.


(** A byte that [strconv.Quote] copies as it is: printable ASCII other than
    the double quote and the backslash. *)
Definition plainByte (c : ascii) : bool :=
  let b := byteZ c in
  (0x20 <=? b)%Z && (b <=? 0x7E)%Z && negb (b =? 0x22)%Z && negb (b =? 0x5C)%Z.

(** The JSON text of a configuration, without the final line feed. *)
Definition configLine (c : GRPCServerConfig) : gostring :=
  str "{" ++ [DQ] ++ str "stdout_addr" ++ [DQ] ++ str ":"
  ++ json.appendString (StdoutAddr c) true
  ++ str "," ++ [DQ] ++ str "stderr_addr" ++ [DQ] ++ str ":"
  ++ json.appendString (StderrAddr c) true
  ++ str "}".

(** A byte that is neither a control character nor one of the three
    characters the encoder escapes for HTML: the ampersand (0x26) and the
    angle brackets (0x3C, 0x3E). *)
Definition htmlSafeByte (c : ascii) : Prop :=
  (0x20 <= byteZ c)%Z /\ byteZ c <> 0x26%Z /\ byteZ c <> 0x3C%Z /\ byteZ c <> 0x3E%Z.

(** A byte the JSON encoder copies as it is: ASCII, in [htmlSafeSet]. *)
Definition copiedByte (c : ascii) : bool :=
  (byteZ c <? 0x80)%Z && json.htmlSafeSet (byteZ c).

(** A string with every byte at which no valid UTF-8 sequence starts
    replaced by the three bytes of U+FFFD, byte by byte: what a reader gets
    back from the text the JSON encoder writes for the string. *)
Fixpoint coerceLoop (fuel : nat) (s : gostring) : gostring :=
  match fuel, s with
  | _, [] => []
  | O, _ :: _ => []
  | S fuel', _ :: _ =>
    let '(r, size) := utf8.DecodeRuneInString s in
    if (r =? utf8.RuneError)%Z && (size =? 1)%nat
    then utf8.AppendRune utf8.RuneError ++ coerceLoop fuel' (skipn 1 s)
    else firstn size s ++ coerceLoop fuel' (skipn size s)
  end.

Definition coerceUTF8 (s : gostring) : gostring := coerceLoop (length s) s.

(** Scanning the string rune by rune meets no invalid encoding, with fuel
    enough for the scan. *)
Definition scans (s : gostring) : Prop := exists n, utf8.validFrom n s = true.

Section Utf8Vocabulary.
Local Open Scope Z_scope.

(** The runes [DecodeRuneInString] assembles from two, three and four bytes. *)
Definition rune2 (b0 b1 : Z) : Z :=
  Z.lor (Z.shiftl (Z.land b0 utf8.mask2) 6) (Z.land b1 utf8.maskx).

Definition rune3 (b0 b1 b2 : Z) : Z :=
  Z.lor (Z.lor (Z.shiftl (Z.land b0 utf8.mask3) 12)
               (Z.shiftl (Z.land b1 utf8.maskx) 6))
        (Z.land b2 utf8.maskx).

Definition rune4 (b0 b1 b2 b3 : Z) : Z :=
  Z.lor (Z.lor (Z.lor (Z.shiftl (Z.land b0 utf8.mask4) 18)
                      (Z.shiftl (Z.land b1 utf8.maskx) 12))
               (Z.shiftl (Z.land b2 utf8.maskx) 6))
        (Z.land b3 utf8.maskx).

(** Three and four byte sequences: the second byte is restricted for some
    first bytes, which excludes overlong forms, surrogates and runes past
    [MaxRune]. *)
Definition valid3 (b0 b1 : Z) : Prop :=
  0xE0 <= b0 < 0xF0 /\ 0x80 <= b1 < 0xC0 /\
  (b0 = 0xE0 -> 0xA0 <= b1) /\ (b0 = 0xED -> b1 < 0xA0).

Definition valid4 (b0 b1 : Z) : Prop :=
  0xF0 <= b0 < 0xF5 /\ 0x80 <= b1 < 0xC0 /\
  (b0 = 0xF0 -> 0x90 <= b1) /\ (b0 = 0xF4 -> b1 < 0x90).

(** A continuation byte outside the range it must lie in. *)
Definition outside (lo hi b : Z) : bool := (b <? lo) || (hi <? b).

(** What a successful decoding of a sequence of more than one byte tells:
    the input starts with the bytes [AppendRune] writes for the rune, these
    are [size] bytes, all of them 0x80 or more, and they decode to the same
    rune whatever follows them. *)
Definition decodesTo (s : gostring) (r : Z) (size : nat) : Prop :=
  exists t,
    s = utf8.AppendRune r ++ t /\
    length (utf8.AppendRune r) = size /\
    (2 <= size)%nat /\
    Forall (fun c => 0x80 <= byteZ c) (utf8.AppendRune r) /\
    0x80 <= r /\
    forall t', utf8.DecodeRuneInString (utf8.AppendRune r ++ t') = (r, size).

End Utf8Vocabulary.

Section InitVocabulary.

Context {Srv TLSConfig : Type}.
Variable isPrintTable : Z -> bool.

Implicit Types (entries : list (gostring * Plugin Srv)).
Implicit Types (raw : Plugin Srv) (ptr : option Srv) (k : gostring).

(** The entry does not implement [GRPCPlugin]. *)
Definition lacksCapability raw : Prop := assertGRPCPlugin raw = None.

(** A call of the method of [p], in the plugin's own terms: on a server
    object the method leaves the object in a new state and returns an error
    or nil; on the nil pointer there is no object, and the method returns
    what it returns for nil. [methodRuns p ptr ptr' err]: called on [ptr],
    the method returns [err] and the pointer's object is afterwards as in
    [ptr']. *)
Inductive methodRuns (p : GRPCPlugin Srv) : option Srv -> option Srv -> error -> Prop :=
| runs_on_server (srv srv' : Srv) (err : error) :
    GRPCServer_method p srv = (srv', err) ->
    methodRuns p (Some srv) (Some srv') err
| runs_on_nil :
    methodRuns p None None (GRPCServer_method_nil p).

(** The entry implements [GRPCPlugin] and its method returns an error
    whatever server pointer it is given. *)
Definition attachFails raw : Prop :=
  exists p, assertGRPCPlugin raw = Some p /\
            forall ptr ptr' err, methodRuns p ptr ptr' err -> err <> None.

(** The registrations of a run. [attached ptr pre ptr']: every entry of
    [pre] implements [GRPCPlugin], and the methods of the entries, called in
    turn, the first on [ptr] and each following one on the server as the one
    before left it, have all returned nil and have left the server as in
    [ptr']. *)
Inductive attached : option Srv -> list (gostring * Plugin Srv) -> option Srv -> Prop :=
| attached_none ptr : attached ptr [] ptr
| attached_next ptr k raw p ptr1 rest ptr' :
    assertGRPCPlugin raw = Some p ->
    methodRuns p ptr ptr1 None ->
    attached ptr1 rest ptr' ->
    attached ptr ((k, raw) :: rest) ptr'.

(** The loop stopped at the entry [(k, raw)], reached with the server as in
    [ptr], with the error [msg] and the server as in [ptr']: the entry lacks
    the capability and the server is untouched, or its method, called on
    [ptr], returned the error [e] and left the server as in [ptr']. *)
Definition stoppedAt ptr k raw ptr' (msg : gostring) : Prop :=
  (assertGRPCPlugin raw = None /\ ptr' = ptr /\
   msg = strconv.Quote isPrintTable k ++ str " is not a GRPC-compatibile plugin")
  \/
  (exists p e,
     assertGRPCPlugin raw = Some p /\ methodRuns p ptr ptr' (Some e) /\
     msg = str "error registring " ++ strconv.Quote isPrintTable k ++ str ": " ++ e).

(** What the loop over [entries], started with the server as in [ptr], has
    done when it ends with the result [err] and the server as in [ptr']:
    with nil every entry was registered; with an error the entries before
    some entry were registered and the loop stopped at that entry. *)
Definition loopResult ptr entries ptr' (err : error) : Prop :=
  match err with
  | None => attached ptr entries ptr'
  | Some msg =>
    exists pre k raw post ptr1,
      entries = pre ++ (k, raw) :: post /\
      attached ptr pre ptr1 /\
      stoppedAt ptr1 k raw ptr' msg
  end.

(** The calls made for the entry at which the loop stopped. *)
Definition attempted k raw : list (Call TLSConfig) :=
  match assertGRPCPlugin raw with
  | Some _ => [CallGRPCServer k]
  | None => []
  end.

(** A view of the surfaces registered on a server: for each surface, the
    name of the plugin it belongs to. The entry [(k, raw)] keeps the
    contract of a plugin for this view when its method, each time it returns
    nil, has added one surface for [k] and has changed no other. *)
Definition registersOnSuccess (surfaces : Srv -> list gostring) k raw : Prop :=
  forall p srv srv',
    assertGRPCPlugin raw = Some p ->
    GRPCServer_method p srv = (srv', None) ->
    surfaces srv' = surfaces srv ++ [k].

End InitVocabulary.

(** ** Example bootstraps *)

(** A server object is modelled by the names of the services registered on
    it; the factory returns a server without services. The table of
    printable runes beyond Latin-1 is empty in the examples, whose names are
    ASCII. *)
Definition demoTable : Z -> bool := fun _ => false.

Definition demoFactory (opts : list (ServerOption unit)) : option (list gostring) :=
  Some [].

(** A plugin that registers the service [service] and returns nil. *)
Definition servicePlugin (service : gostring) : Plugin (list gostring) :=
  ImplementsGRPC
    {| GRPCServer_method := fun srv => (srv ++ [service], None);
       GRPCServer_method_nil := None |}.

Definition demoBootstrap (plugins : gmap gostring (Plugin (list gostring)))
    (tls : option unit) (cfg : GRPCServerConfig)
  : GRPCServer (list gostring) unit unit unit :=
  {| Plugins := plugins; Server := Some demoFactory; TLS := tls;
     DoneCh := tt; Stdout := tt; Stderr := tt; config := cfg; server := None |}.

Definition noAddresses : GRPCServerConfig := {| StdoutAddr := []; StderrAddr := [] |}.

(** One plugin, named bad, that does not implement GRPCPlugin. *)
Definition badEntries : list (gostring * Plugin (list gostring)) :=
  [(str "bad", OtherPlugin)].

Definition badBootstrap : GRPCServer (list gostring) unit unit unit :=
  demoBootstrap {[ str "bad" := OtherPlugin ]} None noAddresses.

(** A name with a double quote in it: the letter a, a double quote, the
    letter b; and one plugin of that name that does not implement
    GRPCPlugin. *)
Definition quotedName : gostring := str "a" ++ [DQ] ++ str "b".

Definition quotedEntries : list (gostring * Plugin (list gostring)) :=
  [(quotedName, OtherPlugin)].

Definition quotedBootstrap : GRPCServer (list gostring) unit unit unit :=
  demoBootstrap {[ quotedName := OtherPlugin ]} None noAddresses.

(** The plugin echo, which registers its service, and the plugin bad, which
    does not implement GRPCPlugin, iterated in this order. *)
Definition mixedEntries : list (gostring * Plugin (list gostring)) :=
  [(str "echo", servicePlugin (str "echo.Echo")); (str "bad", OtherPlugin)].

Definition mixedBootstrap : GRPCServer (list gostring) unit unit unit :=
  demoBootstrap (list_to_map mixedEntries) None noAddresses.

(** A bootstrap whose Server function is nil. *)
Definition unsetBootstrap : GRPCServer (list gostring) unit unit unit :=
  {| Plugins := ∅; Server := None; TLS := None; DoneCh := tt; Stdout := tt;
     Stderr := tt; config := noAddresses; server := None |}.

(** Handshake configurations: addresses of valid UTF-8 (the second ends in a
    two-byte rune), and a first address that is the single byte 0xFF, which
    is not valid UTF-8. *)
Definition addressedBootstrap : GRPCServer (list gostring) unit unit unit :=
  demoBootstrap ∅ None
    {| StdoutAddr := str "127.0.0.1:10000";
       StderrAddr := str "/tmp/plugin-" ++ [ascii_of_nat 195; ascii_of_nat 169] |}.

Definition invalidBootstrap : GRPCServer (list gostring) unit unit unit :=
  demoBootstrap ∅ None {| StdoutAddr := [ascii_of_nat 255]; StderrAddr := [] |}.

(** Addresses of plain ASCII, and the same configuration with TLS set. *)
Definition plainBootstrap : GRPCServer (list gostring) unit unit unit :=
  demoBootstrap ∅ None
    {| StdoutAddr := str "127.0.0.1:10000"; StderrAddr := str "127.0.0.1:10001" |}.

Definition plainTLSBootstrap : GRPCServer (list gostring) unit unit unit :=
  demoBootstrap ∅ (Some tt)
    {| StdoutAddr := str "127.0.0.1:10000"; StderrAddr := str "127.0.0.1:10001" |}.

(** A plugin whose method registers nothing and returns the error [e]. *)
Definition failingMethods (e : gostring) : GRPCPlugin (list gostring) :=
  {| GRPCServer_method := fun srv => (srv, Some e);
     GRPCServer_method_nil := Some e |}.

(** A plugin that registers a surface under the name [name] on the server
    it is given, and refuses the nil pointer. *)
Definition strictPlugin (name : gostring) : Plugin (list gostring) :=
  ImplementsGRPC
    {| GRPCServer_method := fun srv => (srv ++ [name], None);
       GRPCServer_method_nil := Some (str "no server") |}.

(** Three plugins: echo registers its surface, the method of kv returns an
    error, bad does not implement GRPCPlugin; and two orders in which the
    iteration may yield them. *)
Definition crowdEntries : list (gostring * Plugin (list gostring)) :=
  [(str "echo", strictPlugin (str "echo"));
   (str "kv", ImplementsGRPC (failingMethods (str "no store")));
   (str "bad", OtherPlugin)].

Definition crowdEntriesAlt : list (gostring * Plugin (list gostring)) :=
  [(str "echo", strictPlugin (str "echo"));
   (str "bad", OtherPlugin);
   (str "kv", ImplementsGRPC (failingMethods (str "no store")))].

Definition crowdBootstrap : GRPCServer (list gostring) unit unit unit :=
  demoBootstrap (list_to_map crowdEntries) None noAddresses.

(** Two plugins that register one surface each under their own names, with
    TLS configured. *)
Definition namedEntries : list (gostring * Plugin (list gostring)) :=
  [(str "echo", strictPlugin (str "echo")); (str "kv", strictPlugin (str "kv"))].

Definition namedBootstrap : GRPCServer (list gostring) unit unit unit :=
  demoBootstrap (list_to_map namedEntries) (Some tt) noAddresses.

(** A plugin whose method returns nil and registers nothing. *)
Definition quietPlugin : Plugin (list gostring) :=
  ImplementsGRPC
    {| GRPCServer_method := fun srv => (srv, None);
       GRPCServer_method_nil := None |}.

Definition quietEntries : list (gostring * Plugin (list gostring)) :=
  [(str "quiet", quietPlugin)].

Definition quietBootstrap : GRPCServer (list gostring) unit unit unit :=
  demoBootstrap {[ str "quiet" := quietPlugin ]} None noAddresses.

(** The two plugins of [namedEntries] on a bootstrap whose Server function
    is nil. *)
Definition noFactoryBootstrap : GRPCServer (list gostring) unit unit unit :=
  {| Plugins := list_to_map namedEntries; Server := None; TLS := Some tt;
     DoneCh := tt; Stdout := tt; Stderr := tt; config := noAddresses;
     server := None |}.

(** A factory whose server shows the options it was made from: one surface
    named creds for each credentials option. *)
Definition markingFactory (opts : list (ServerOption unit)) : option (list gostring) :=
  Some (map (fun _ => str "creds") opts).

Definition markedBootstrap (entries : list (gostring * Plugin (list gostring)))
    (tls : option unit) : GRPCServer (list gostring) unit unit unit :=
  {| Plugins := list_to_map entries; Server := Some markingFactory; TLS := tls;
     DoneCh := tt; Stdout := tt; Stderr := tt; config := noAddresses;
     server := None |}.

(** A bootstrap whose factory is [DefaultGRPCServer], with a [grpc.NewServer]
    that returns a server without services. *)
Definition demoNewServer (opts : list (ServerOption unit)) : list gostring := [].

Definition defaultBootstrap : GRPCServer (list gostring) unit unit unit :=
  {| Plugins := {[ str "bad" := OtherPlugin ]};
     Server := Some (DefaultGRPCServer demoNewServer); TLS := Some tt;
     DoneCh := tt; Stdout := tt; Stderr := tt; config := noAddresses;
     server := None |}.

(** * Properties *)

(** ** Bytes and substrings *)

Lemma byteZ_range (c : ascii) : (0 <= byteZ c < 256)%Z.
Proof.
  unfold byteZ. pose proof (N_ascii_bounded c). lia.
Qed.

Lemma Zbyte_byteZ (c : ascii) : Zbyte (byteZ c) = c.
Proof.
  unfold Zbyte. pose proof (byteZ_range c) as Hr.
  rewrite Z.mod_small by lia. unfold byteZ.
  rewrite N2Z.id. apply ascii_N_embedding.
Qed.

Lemma HasPrefix_app (p t : gostring) : HasPrefix (p ++ t) p = true.
Proof.
  induction p as [|c p IH]; simpl; [reflexivity|].
  now rewrite Ascii.eqb_refl.
Qed.

Lemma HasPrefix_inv (s p : gostring) :
  HasPrefix s p = true -> exists t, s = p ++ t.
Proof.
  revert s. induction p as [|c p IH]; intros s H.
  - now exists s.
  - destruct s as [|d s]; simpl in H; [discriminate|].
    destruct (Ascii.eqb d c) eqn:E; [|discriminate].
    apply Ascii.eqb_eq in E. subst d.
    destruct (IH _ H) as [t ->]. now exists t.
Qed.

(** [Contains] decides being a substring. *)
Lemma Contains_spec (s sub : gostring) :
  Contains s sub = true <-> exists pre post, s = pre ++ sub ++ post.
Proof.
  split.
  - induction s as [|c s IH]; simpl; intros H.
    + rewrite orb_false_r in H. apply HasPrefix_inv in H as [t Ht].
      now exists [], t.
    + apply orb_true_iff in H as [H|H].
      * apply HasPrefix_inv in H as [t Ht]. now exists [], t.
      * destruct (IH H) as (pre & post & ->). now exists (c :: pre), post.
  - intros (pre & post & ->). induction pre as [|c pre IH]; simpl.
    + destruct (sub ++ post) eqn:E; simpl; rewrite <- ?E, HasPrefix_app; reflexivity.
    + rewrite IH. apply orb_true_r.
Qed.

Lemma Contains_middle (pre sub post : gostring) :
  Contains (pre ++ sub ++ post) sub = true.
Proof. apply Contains_spec. now exists pre, post. Qed.

(** ** Bit operations on bytes and runes *)

Section BitArithmetic.
Local Open Scope Z_scope.

Lemma land_low_zero (a b n : Z) :
  0 <= n -> a mod 2 ^ n = 0 -> 0 <= b < 2 ^ n -> Z.land a b = 0.
Proof.
  intros Hn Ha Hb. apply Z.bits_inj'. intros m Hm.
  rewrite Z.land_spec, Z.bits_0.
  destruct (Z.lt_ge_cases m n) as [Hlt | Hge].
  - assert (Hdiv : a = a / 2 ^ n * 2 ^ n).
    { pose proof (Z.div_mod a (2 ^ n)). lia. }
    rewrite Hdiv, Z.mul_pow2_bits_low by assumption. reflexivity.
  - rewrite <- (Z.mod_small b (2 ^ n)) by assumption.
    rewrite Z.mod_pow2_bits_high by lia. apply andb_false_r.
Qed.

(** [a | b] is [a + b] when [b] fits below the lowest set bit of [a]. *)
Lemma lor_low (n a b : Z) :
  0 <= n -> a mod 2 ^ n = 0 -> 0 <= b < 2 ^ n -> Z.lor a b = a + b.
Proof.
  intros Hn Ha Hb. pose proof (Z.add_lor_land a b) as H.
  rewrite (land_low_zero a b n) in H by assumption. lia.
Qed.

End BitArithmetic.

(** Bit operations with constant shifts and masks, as arithmetic. *)
Ltac bits_to_arith :=
  unfold utf8.maskx, utf8.mask2, utf8.mask3, utf8.mask4,
         utf8.tx, utf8.t2, utf8.t3, utf8.t4 in *;
  change 0x3F%Z with (Z.ones 6) in *;
  change 0x1F%Z with (Z.ones 5) in *;
  change 0x0F%Z with (Z.ones 4) in *;
  change 0x07%Z with (Z.ones 3) in *;
  rewrite ?Z.land_ones, ?Z.shiftl_mul_pow2, ?Z.shiftr_div_pow2 in * by lia;
  change (2 ^ 3)%Z with 8%Z in *; change (2 ^ 4)%Z with 16%Z in *;
  change (2 ^ 5)%Z with 32%Z in *; change (2 ^ 6)%Z with 64%Z in *;
  change (2 ^ 12)%Z with 4096%Z in *; change (2 ^ 18)%Z with 262144%Z in *.

(** Linear arithmetic with division and remainder by constants. *)
Ltac zlia := Z.to_euclidean_division_equations; lia.

(** Rewrite an innermost [Z.lor a b] into [a + b], [b] being below [2 ^ n]. *)
Ltac lor_add n :=
  match goal with
  | |- context [Z.lor ?a ?b] =>
    lazymatch a with
    | context [Z.lor] => fail
    | _ =>
      rewrite (lor_low n a b);
      [ | lia
        | let v := eval vm_compute in (2 ^ n)%Z in change (2 ^ n)%Z with v; zlia
        | let v := eval vm_compute in (2 ^ n)%Z in change (2 ^ n)%Z with v; zlia ]
    end
  end.

Section Utf8Arithmetic.
Local Open Scope Z_scope.

Lemma rune2_value (b0 b1 : Z) :
  0xC0 <= b0 < 0xE0 -> 0x80 <= b1 < 0xC0 ->
  rune2 b0 b1 = (b0 - 0xC0) * 64 + (b1 - 0x80).
Proof.
  intros H0 H1. unfold rune2. bits_to_arith.
  lor_add 6. zlia.
Qed.

Lemma rune3_value (b0 b1 b2 : Z) :
  0xE0 <= b0 < 0xF0 -> 0x80 <= b1 < 0xC0 -> 0x80 <= b2 < 0xC0 ->
  rune3 b0 b1 b2 = (b0 - 0xE0) * 4096 + (b1 - 0x80) * 64 + (b2 - 0x80).
Proof.
  intros H0 H1 H2. unfold rune3. bits_to_arith.
  lor_add 12. lor_add 6. zlia.
Qed.

Lemma rune4_value (b0 b1 b2 b3 : Z) :
  0xF0 <= b0 < 0xF8 -> 0x80 <= b1 < 0xC0 -> 0x80 <= b2 < 0xC0 -> 0x80 <= b3 < 0xC0 ->
  rune4 b0 b1 b2 b3
  = (b0 - 0xF0) * 262144 + (b1 - 0x80) * 4096 + (b2 - 0x80) * 64 + (b3 - 0x80).
Proof.
  intros H0 H1 H2 H3. unfold rune4. bits_to_arith.
  lor_add 18. lor_add 12.
  lor_add 6. zlia.
Qed.

(** The bytes [AppendRune] writes for a rune, by the rune's range. *)
Lemma lead2 (r : Z) : 0 <= r < 0x800 -> Z.lor utf8.t2 (Z.shiftr r 6) = 0xC0 + r / 64.
Proof. intros H. bits_to_arith. lor_add 6. zlia. Qed.

Lemma lead3 (r : Z) : 0 <= r < 0x10000 -> Z.lor utf8.t3 (Z.shiftr r 12) = 0xE0 + r / 4096.
Proof. intros H. bits_to_arith. lor_add 5. zlia. Qed.

Lemma lead4 (r : Z) : 0 <= r < 0x200000 -> Z.lor utf8.t4 (Z.shiftr r 18) = 0xF0 + r / 262144.
Proof. intros H. bits_to_arith. lor_add 4. zlia. Qed.

Lemma cont0 (r : Z) : Z.lor utf8.tx (Z.land r utf8.maskx) = 0x80 + r mod 64.
Proof. bits_to_arith. lor_add 6. zlia. Qed.

Lemma cont6 (r : Z) :
  Z.lor utf8.tx (Z.land (Z.shiftr r 6) utf8.maskx) = 0x80 + (r / 64) mod 64.
Proof. bits_to_arith. lor_add 6. zlia. Qed.

Lemma cont12 (r : Z) :
  Z.lor utf8.tx (Z.land (Z.shiftr r 12) utf8.maskx) = 0x80 + (r / 4096) mod 64.
Proof. bits_to_arith. lor_add 6. zlia. Qed.

End Utf8Arithmetic.

(** ** unicode/utf8: decoding and encoding agree *)

(** The constants of unicode/utf8, unfolded. *)
Ltac utf8_constants :=
  cbv delta [utf8.RuneError utf8.RuneSelf utf8.MaxRune utf8.surrogateMin
             utf8.surrogateMax utf8.rune1Max utf8.rune2Max utf8.rune3Max
             utf8.locb utf8.hicb utf8.xx utf8.as_ utf8.s1 utf8.s2 utf8.s3
             utf8.s4 utf8.s5 utf8.s6 utf8.s7] in *.

(** A boolean test on integers, as a proposition. *)
Ltac bool_to_prop H :=
  rewrite ?andb_true_iff, ?andb_false_iff, ?orb_true_iff, ?orb_false_iff,
    ?negb_true_iff, ?negb_false_iff, ?Z.leb_le, ?Z.leb_gt, ?Z.ltb_lt,
    ?Z.ltb_ge, ?Z.eqb_eq, ?Z.eqb_neq, ?Nat.eqb_eq, ?Nat.eqb_neq in H.

(** Decide the condition of the conditional at the head of the goal's left
    side, an inner condition first; both cases remain when the hypotheses
    do not settle it. *)
Ltac resolve_cond c :=
  lazymatch c with
  | context [if ?c' then _ else _] => resolve_cond c'
  | _ =>
    let E := fresh "E" in
    destruct c eqn:E; bool_to_prop E; try (exfalso; lia)
  end.

Ltac head_if :=
  match goal with
  | |- (if ?c then _ else _) = _ => resolve_cond c
  end.

Section Utf8Properties.
Local Open Scope Z_scope.

Lemma AppendRune_range2 (r : Z) :
  0x80 <= r < 0x800 ->
  utf8.AppendRune r = [Zbyte (0xC0 + r / 64); Zbyte (0x80 + r mod 64)].
Proof.
  intros Hr. rewrite <- lead2, <- cont0 by lia.
  unfold utf8.AppendRune. utf8_constants. now repeat head_if.
Qed.

Lemma AppendRune_range3 (r : Z) :
  0x800 <= r < 0x10000 -> r < 0xD800 \/ 0xDFFF < r ->
  utf8.AppendRune r
  = [Zbyte (0xE0 + r / 4096); Zbyte (0x80 + (r / 64) mod 64); Zbyte (0x80 + r mod 64)].
Proof.
  intros Hr Hs. rewrite <- lead3, <- cont6, <- cont0 by lia.
  unfold utf8.AppendRune. utf8_constants. now repeat head_if.
Qed.

Lemma AppendRune_range4 (r : Z) :
  0x10000 <= r <= 0x10FFFF ->
  utf8.AppendRune r
  = [Zbyte (0xF0 + r / 262144); Zbyte (0x80 + (r / 4096) mod 64);
     Zbyte (0x80 + (r / 64) mod 64); Zbyte (0x80 + r mod 64)].
Proof.
  intros Hr. rewrite <- lead4, <- cont12, <- cont6, <- cont0 by lia.
  unfold utf8.AppendRune. utf8_constants. now repeat head_if.
Qed.

Lemma AppendRune_two (b0 b1 : Z) :
  0xC2 <= b0 < 0xE0 -> 0x80 <= b1 < 0xC0 ->
  utf8.AppendRune (rune2 b0 b1) = [Zbyte b0; Zbyte b1].
Proof.
  intros H0 H1. rewrite rune2_value by lia.
  set (r := (b0 - 0xC0) * 64 + (b1 - 0x80)).
  rewrite AppendRune_range2 by (subst r; lia).
  replace (0xC0 + r / 64) with b0 by (subst r; zlia).
  replace (0x80 + r mod 64) with b1 by (subst r; zlia).
  reflexivity.
Qed.

Lemma AppendRune_three (b0 b1 b2 : Z) :
  valid3 b0 b1 -> 0x80 <= b2 < 0xC0 ->
  utf8.AppendRune (rune3 b0 b1 b2) = [Zbyte b0; Zbyte b1; Zbyte b2].
Proof.
  intros (H0 & H1 & Hlo & Hhi) H2. rewrite rune3_value by lia.
  set (r := (b0 - 0xE0) * 4096 + (b1 - 0x80) * 64 + (b2 - 0x80)).
  rewrite AppendRune_range3 by (subst r; lia).
  replace (0xE0 + r / 4096) with b0 by (subst r; zlia).
  replace (0x80 + (r / 64) mod 64) with b1 by (subst r; zlia).
  replace (0x80 + r mod 64) with b2 by (subst r; zlia).
  reflexivity.
Qed.

Lemma AppendRune_four (b0 b1 b2 b3 : Z) :
  valid4 b0 b1 -> 0x80 <= b2 < 0xC0 -> 0x80 <= b3 < 0xC0 ->
  utf8.AppendRune (rune4 b0 b1 b2 b3) = [Zbyte b0; Zbyte b1; Zbyte b2; Zbyte b3].
Proof.
  intros (H0 & H1 & Hlo & Hhi) H2 H3. rewrite rune4_value by lia.
  set (r := (b0 - 0xF0) * 262144 + (b1 - 0x80) * 4096 + (b2 - 0x80) * 64 + (b3 - 0x80)).
  rewrite AppendRune_range4 by (subst r; lia).
  replace (0xF0 + r / 262144) with b0 by (subst r; zlia).
  replace (0x80 + (r / 4096) mod 64) with b1 by (subst r; zlia).
  replace (0x80 + (r / 64) mod 64) with b2 by (subst r; zlia).
  replace (0x80 + r mod 64) with b3 by (subst r; zlia).
  reflexivity.
Qed.

(** The classes of a first byte, as the table [first] assigns them. *)
Lemma first_cases (b : Z) :
  0 <= b < 256 ->
  (b < 0x80 /\ utf8.first b = utf8.as_) \/
  ((0x80 <= b < 0xC2 \/ 0xF5 <= b) /\ utf8.first b = utf8.xx) \/
  (0xC2 <= b < 0xE0 /\ utf8.first b = utf8.s1) \/
  (b = 0xE0 /\ utf8.first b = utf8.s2) \/
  ((0xE1 <= b < 0xED \/ 0xEE <= b < 0xF0) /\ utf8.first b = utf8.s3) \/
  (b = 0xED /\ utf8.first b = utf8.s4) \/
  (b = 0xF0 /\ utf8.first b = utf8.s5) \/
  (0xF1 <= b < 0xF4 /\ utf8.first b = utf8.s6) \/
  (b = 0xF4 /\ utf8.first b = utf8.s7).
Proof.
  intros Hb.
  assert (H : b < 0x80 \/ 0x80 <= b < 0xC2 \/ 0xF5 <= b \/ 0xC2 <= b < 0xE0 \/
              b = 0xE0 \/ 0xE1 <= b < 0xED \/ 0xEE <= b < 0xF0 \/ b = 0xED \/
              b = 0xF0 \/ 0xF1 <= b < 0xF4 \/ b = 0xF4) by lia.
  decompose [or] H; clear H;
    repeat (first [ left; split; [lia | unfold utf8.first; now repeat head_if]
                  | right ]);
    (split; [lia | unfold utf8.first; now repeat head_if]).
Qed.

End Utf8Properties.

Section DecodeProperties.
Local Open Scope Z_scope.

Lemma outside_false (lo hi b : Z) : outside lo hi b = false <-> lo <= b <= hi.
Proof. unfold outside. rewrite orb_false_iff, Z.ltb_ge, Z.ltb_ge. lia. Qed.

Lemma Decode_ascii (c0 : ascii) (r0 : gostring) :
  byteZ c0 < 0x80 -> utf8.DecodeRuneInString (c0 :: r0) = (byteZ c0, 1%nat).
Proof.
  intros Hb. pose proof (byteZ_range c0) as Hr.
  destruct (first_cases _ Hr) as [[_ Hf] | H]; [|lia].
  unfold utf8.DecodeRuneInString. cbv zeta. rewrite Hf. reflexivity.
Qed.

Lemma Decode_invalid (c0 : ascii) (r0 : gostring) :
  utf8.first (byteZ c0) = utf8.xx ->
  utf8.DecodeRuneInString (c0 :: r0) = (utf8.RuneError, 1%nat).
Proof.
  intros Hf. unfold utf8.DecodeRuneInString. cbv zeta. rewrite Hf. reflexivity.
Qed.

Lemma Decode_two (c0 : ascii) (r0 : gostring) :
  utf8.first (byteZ c0) = utf8.s1 ->
  utf8.DecodeRuneInString (c0 :: r0)
  = match r0 with
    | c1 :: _ =>
      if outside 0x80 0xBF (byteZ c1) then (utf8.RuneError, 1%nat)
      else (rune2 (byteZ c0) (byteZ c1), 2%nat)
    | [] => (utf8.RuneError, 1%nat)
    end.
Proof.
  intros Hf. unfold utf8.DecodeRuneInString. cbv zeta. rewrite Hf.
  destruct r0 as [|c1 r1]; reflexivity.
Qed.

Lemma Decode_three (c0 : ascii) (r0 : gostring) (x lo hi : Z) :
  utf8.first (byteZ c0) = x ->
  (x, lo, hi) = (utf8.s2, 0xA0, 0xBF) \/ (x, lo, hi) = (utf8.s3, 0x80, 0xBF) \/
  (x, lo, hi) = (utf8.s4, 0x80, 0x9F) ->
  utf8.DecodeRuneInString (c0 :: r0)
  = match r0 with
    | c1 :: c2 :: _ =>
      if outside lo hi (byteZ c1) then (utf8.RuneError, 1%nat)
      else if outside 0x80 0xBF (byteZ c2) then (utf8.RuneError, 1%nat)
      else (rune3 (byteZ c0) (byteZ c1) (byteZ c2), 3%nat)
    | _ => (utf8.RuneError, 1%nat)
    end.
Proof.
  intros Hf Hx. unfold utf8.DecodeRuneInString. cbv zeta. rewrite Hf.
  destruct Hx as [Hx | [Hx | Hx]]; injection Hx as -> -> ->;
    destruct r0 as [|c1 [|c2 r2]]; try reflexivity;
    cbv beta iota zeta delta [length Nat.ltb Nat.leb utf8.as_ utf8.s2 utf8.s3 utf8.s4];
    unfold outside; destruct (_ || _); reflexivity.
Qed.

Lemma Decode_four (c0 : ascii) (r0 : gostring) (x lo hi : Z) :
  utf8.first (byteZ c0) = x ->
  (x, lo, hi) = (utf8.s5, 0x90, 0xBF) \/ (x, lo, hi) = (utf8.s6, 0x80, 0xBF) \/
  (x, lo, hi) = (utf8.s7, 0x80, 0x8F) ->
  utf8.DecodeRuneInString (c0 :: r0)
  = match r0 with
    | c1 :: c2 :: c3 :: _ =>
      if outside lo hi (byteZ c1) then (utf8.RuneError, 1%nat)
      else if outside 0x80 0xBF (byteZ c2) then (utf8.RuneError, 1%nat)
      else if outside 0x80 0xBF (byteZ c3) then (utf8.RuneError, 1%nat)
      else (rune4 (byteZ c0) (byteZ c1) (byteZ c2) (byteZ c3), 4%nat)
    | _ => (utf8.RuneError, 1%nat)
    end.
Proof.
  intros Hf Hx. unfold utf8.DecodeRuneInString. cbv zeta. rewrite Hf.
  destruct Hx as [Hx | [Hx | Hx]]; injection Hx as -> -> ->;
    destruct r0 as [|c1 [|c2 [|c3 r3]]]; try reflexivity;
    cbv beta iota zeta delta [length Nat.ltb Nat.leb utf8.as_ utf8.s5 utf8.s6 utf8.s7];
    unfold outside; repeat (destruct (_ || _); try reflexivity).
Qed.

End DecodeProperties.

Section DecodeInversion.
Local Open Scope Z_scope.

Lemma decodesTo_two (c0 c1 : ascii) (r1 : gostring) :
  utf8.first (byteZ c0) = utf8.s1 -> 0xC2 <= byteZ c0 < 0xE0 ->
  outside 0x80 0xBF (byteZ c1) = false ->
  decodesTo (c0 :: c1 :: r1) (rune2 (byteZ c0) (byteZ c1)) 2.
Proof.
  intros Hf H0 H1. apply outside_false in H1 as H1'.
  exists r1. rewrite AppendRune_two, !Zbyte_byteZ by lia.
  split; [reflexivity|]. split; [reflexivity|]. split; [lia|].
  split; [repeat constructor; lia|].
  split; [rewrite rune2_value by lia; lia|].
  intros t'. cbn [app]. rewrite (Decode_two _ _ Hf), H1. reflexivity.
Qed.

Lemma decodesTo_three (c0 c1 c2 : ascii) (r2 : gostring) (x lo hi : Z) :
  utf8.first (byteZ c0) = x ->
  (x, lo, hi) = (utf8.s2, 0xA0, 0xBF) \/ (x, lo, hi) = (utf8.s3, 0x80, 0xBF) \/
  (x, lo, hi) = (utf8.s4, 0x80, 0x9F) ->
  valid3 (byteZ c0) (byteZ c1) ->
  outside lo hi (byteZ c1) = false ->
  outside 0x80 0xBF (byteZ c2) = false ->
  decodesTo (c0 :: c1 :: c2 :: r2) (rune3 (byteZ c0) (byteZ c1) (byteZ c2)) 3.
Proof.
  intros Hf Hx Hv H1 H2. apply outside_false in H2 as H2'.
  pose proof Hv as (Hv0 & Hv1 & Hlo & Hhi).
  exists r2. rewrite AppendRune_three, !Zbyte_byteZ by (assumption || lia).
  split; [reflexivity|]. split; [reflexivity|]. split; [lia|].
  split; [repeat constructor; lia|].
  split; [rewrite rune3_value by lia; lia|].
  intros t'. cbn [app]. rewrite (Decode_three _ _ _ _ _ Hf Hx), H1, H2. reflexivity.
Qed.

Lemma decodesTo_four (c0 c1 c2 c3 : ascii) (r3 : gostring) (x lo hi : Z) :
  utf8.first (byteZ c0) = x ->
  (x, lo, hi) = (utf8.s5, 0x90, 0xBF) \/ (x, lo, hi) = (utf8.s6, 0x80, 0xBF) \/
  (x, lo, hi) = (utf8.s7, 0x80, 0x8F) ->
  valid4 (byteZ c0) (byteZ c1) ->
  outside lo hi (byteZ c1) = false ->
  outside 0x80 0xBF (byteZ c2) = false ->
  outside 0x80 0xBF (byteZ c3) = false ->
  decodesTo (c0 :: c1 :: c2 :: c3 :: r3)
            (rune4 (byteZ c0) (byteZ c1) (byteZ c2) (byteZ c3)) 4.
Proof.
  intros Hf Hx Hv H1 H2 H3.
  apply outside_false in H2 as H2'. apply outside_false in H3 as H3'.
  pose proof Hv as (Hv0 & Hv1 & Hlo & Hhi).
  exists r3. rewrite AppendRune_four, !Zbyte_byteZ by (assumption || lia).
  split; [reflexivity|]. split; [reflexivity|]. split; [lia|].
  split; [repeat constructor; lia|].
  split; [rewrite rune4_value by lia; lia|].
  intros t'. cbn [app].
  rewrite (Decode_four _ _ _ _ _ Hf Hx), H1, H2, H3. reflexivity.
Qed.

(** Decoding at a byte of 0x80 or more gives [(RuneError, 1)] or a rune of
    two to four bytes as [decodesTo] describes it. *)
Lemma Decode_multibyte (c0 : ascii) (r0 : gostring) (r : Z) (size : nat) :
  0x80 <= byteZ c0 ->
  utf8.DecodeRuneInString (c0 :: r0) = (r, size) ->
  (r, size) = (utf8.RuneError, 1%nat) \/ decodesTo (c0 :: r0) r size.
Proof.
  intros Hb Hdec. pose proof (byteZ_range c0) as Hr.
  destruct (first_cases _ Hr)
    as [[H _] | [[_ Hf] | [[H Hf] | [[H Hf] | [[H Hf] | [[H Hf] | [[H Hf]
       | [[H Hf] | [H Hf]]]]]]]]];
    [lia | | | | | | | |].
  - left. rewrite <- Hdec. now apply Decode_invalid.
  - rewrite (Decode_two _ _ Hf) in Hdec.
    destruct r0 as [|c1 r1]; [now left|].
    destruct (outside 128 191 (byteZ c1)) eqn:E1; [now left|].
    right. injection Hdec as <- <-. now apply decodesTo_two.
  - rewrite (Decode_three _ _ _ 0xA0 0xBF Hf) in Hdec by (now left).
    destruct r0 as [|c1 [|c2 r2]]; [now left | now left |].
    destruct (outside 160 191 (byteZ c1)) eqn:E1; [now left|].
    destruct (outside 128 191 (byteZ c2)) eqn:E2; [now left|].
    right. injection Hdec as <- <-.
    apply (decodesTo_three _ _ _ _ _ 0xA0 0xBF Hf); try assumption; [now left|].
    apply outside_false in E1. unfold valid3. lia.
  - rewrite (Decode_three _ _ _ 0x80 0xBF Hf) in Hdec by (right; now left).
    destruct r0 as [|c1 [|c2 r2]]; [now left | now left |].
    destruct (outside 128 191 (byteZ c1)) eqn:E1; [now left|].
    destruct (outside 128 191 (byteZ c2)) eqn:E2; [now left|].
    right. injection Hdec as <- <-.
    apply (decodesTo_three _ _ _ _ _ 0x80 0xBF Hf); try assumption;
      [right; now left|].
    apply outside_false in E1. unfold valid3. lia.
  - rewrite (Decode_three _ _ _ 0x80 0x9F Hf) in Hdec by (right; now right).
    destruct r0 as [|c1 [|c2 r2]]; [now left | now left |].
    destruct (outside 128 159 (byteZ c1)) eqn:E1; [now left|].
    destruct (outside 128 191 (byteZ c2)) eqn:E2; [now left|].
    right. injection Hdec as <- <-.
    apply (decodesTo_three _ _ _ _ _ 0x80 0x9F Hf); try assumption;
      [right; now right|].
    apply outside_false in E1. unfold valid3. lia.
  - rewrite (Decode_four _ _ _ 0x90 0xBF Hf) in Hdec by (now left).
    destruct r0 as [|c1 [|c2 [|c3 r3]]]; [now left | now left | now left |].
    destruct (outside 144 191 (byteZ c1)) eqn:E1; [now left|].
    destruct (outside 128 191 (byteZ c2)) eqn:E2; [now left|].
    destruct (outside 128 191 (byteZ c3)) eqn:E3; [now left|].
    right. injection Hdec as <- <-.
    apply (decodesTo_four _ _ _ _ _ _ 0x90 0xBF Hf); try assumption; [now left|].
    apply outside_false in E1. unfold valid4. lia.
  - rewrite (Decode_four _ _ _ 0x80 0xBF Hf) in Hdec by (right; now left).
    destruct r0 as [|c1 [|c2 [|c3 r3]]]; [now left | now left | now left |].
    destruct (outside 128 191 (byteZ c1)) eqn:E1; [now left|].
    destruct (outside 128 191 (byteZ c2)) eqn:E2; [now left|].
    destruct (outside 128 191 (byteZ c3)) eqn:E3; [now left|].
    right. injection Hdec as <- <-.
    apply (decodesTo_four _ _ _ _ _ _ 0x80 0xBF Hf); try assumption;
      [right; now left|].
    apply outside_false in E1. unfold valid4. lia.
  - rewrite (Decode_four _ _ _ 0x80 0x8F Hf) in Hdec by (right; now right).
    destruct r0 as [|c1 [|c2 [|c3 r3]]]; [now left | now left | now left |].
    destruct (outside 128 143 (byteZ c1)) eqn:E1; [now left|].
    destruct (outside 128 191 (byteZ c2)) eqn:E2; [now left|].
    destruct (outside 128 191 (byteZ c3)) eqn:E3; [now left|].
    right. injection Hdec as <- <-.
    apply (decodesTo_four _ _ _ _ _ _ 0x80 0x8F Hf); try assumption;
      [right; now right|].
    apply outside_false in E1. unfold valid4. lia.
Qed.

Lemma decodesTo_split (s : gostring) (r : Z) (size : nat) :
  decodesTo s r size ->
  firstn size s = utf8.AppendRune r /\ s = utf8.AppendRune r ++ skipn size s.
Proof.
  intros (t & -> & <- & _).
  rewrite firstn_app, Nat.sub_diag, firstn_all, firstn_O, app_nil_r.
  rewrite skipn_app, Nat.sub_diag, skipn_all, skipn_O. now split.
Qed.

End DecodeInversion.

(** ** encoding/json: what the encoder writes, the decoder reads back *)

Section JsonStrings.
Local Open Scope Z_scope.

Lemma hex_printable (z : Z) : 0x20 <= byteZ (hex z) < 0x80.
Proof.
  unfold hex. set (n := Z.to_nat z). clearbody n.
  do 16 (destruct n as [|n];
         [vm_compute; split; [intros H; discriminate H | reflexivity]|]).
  destruct n; vm_compute; split; (reflexivity || (intros H; discriminate H)).
Qed.


End JsonStrings.

Section JsonRoundTrip.
Local Open Scope Z_scope.

(** One step of the decoder on what the encoder writes for an ASCII byte:
    the byte itself when it is safe, its escape otherwise. *)
Lemma unquote_ascii_step (c : ascii) (m : nat) (tail : gostring) :
  (byteZ c <? 0x80) = true ->
  json.unquoteLoop (S m)
    ((if json.htmlSafeSet (byteZ c) then [c] else json.escapeByte (byteZ c)) ++ tail)
  = json.consume [c] (json.unquoteLoop m tail).
Proof.
  destruct c as [[] [] [] [] [] [] [] []]; intros H;
    try (vm_compute in H; discriminate H); reflexivity.
Qed.

(** One step of the decoder on the escape of a line or paragraph separator. *)
Lemma unquote_separator_step (r : Z) (m : nat) (tail : gostring) :
  r = 0x2028 \/ r = 0x2029 ->
  json.unquoteLoop (S m) (str "\u202" ++ [hex (Z.land r 0xF)] ++ tail)
  = json.consume (utf8.AppendRune r) (json.unquoteLoop m tail).
Proof.
  intros [-> | ->]; reflexivity.
Qed.

(** One step of the decoder on the bytes of a rune copied as they are. *)
Lemma unquote_rune_step (s : gostring) (r : Z) (size : nat) (m : nat) (tail : gostring) :
  decodesTo s r size ->
  json.unquoteLoop (S m) (utf8.AppendRune r ++ tail)
  = json.consume (utf8.AppendRune r) (json.unquoteLoop m tail).
Proof.
  intros (t & _ & Hlen & Hsz & Hhigh & _ & Hdec).
  specialize (Hdec tail).
  destruct (utf8.AppendRune r) as [|c0 rest] eqn:Henc; [simpl in Hlen; lia|].
  inversion Hhigh as [|? ? Hc0 _]; subst.
  pose proof (byteZ_range c0) as Hr.
  cbn [app] in *. cbn [json.unquoteLoop].
  replace (byteZ c0 =? 34) with false by lia.
  replace (byteZ c0 =? 92) with false by lia.
  replace (byteZ c0 <? 32) with false by lia.
  replace (byteZ c0 <? utf8.RuneSelf) with false by (unfold utf8.RuneSelf; lia).
  rewrite Hdec, Henc.
  change (c0 :: rest ++ tail) with ((c0 :: rest) ++ tail).
  now rewrite skipn_app, Nat.sub_diag, skipn_all, skipn_O.
Qed.

Lemma consume_some (out t rest : gostring) :
  json.consume out (Some (t, rest)) = Some (out ++ t, rest).
Proof. reflexivity. Qed.

(** The decoder reads back what [appendString] writes for a string of valid
    UTF-8, up to the closing quote. *)
Lemma unquote_appendStringLoop (fuel : nat) :
  forall (src : gostring) (m : nat) (rest : gostring),
    (length src <= fuel)%nat ->
    utf8.validFrom fuel src = true ->
    (length (json.appendStringLoop fuel src true) < m)%nat ->
    json.unquoteLoop m (json.appendStringLoop fuel src true ++ DQ :: rest)
    = Some (src, rest).
Proof.
  induction fuel as [|fuel IH]; intros src m rest Hlen Hvalid Hm.
  - destruct src; [|simpl in Hlen; lia].
    destruct m; [simpl in Hm; lia|]. reflexivity.
  - destruct src as [|c0 r0].
    { destruct m; [simpl in Hm; lia|]. reflexivity. }
    cbn [utf8.validFrom] in Hvalid. cbn [json.appendStringLoop] in Hm |- *.
    cbn [negb andb orb] in *. rewrite orb_false_r in *.
    destruct (byteZ c0 <? utf8.RuneSelf) eqn:Hascii.
    + (* an ASCII byte *)
      rewrite Decode_ascii in Hvalid by (unfold utf8.RuneSelf in Hascii; lia).
      destruct ((byteZ c0 =? utf8.RuneError) && (1 =? 1)%nat); [discriminate|].
      cbn [skipn] in Hvalid.
      rewrite length_app in Hm. rewrite <- app_assoc.
      destruct m as [|m].
      { lia. }
      rewrite unquote_ascii_step by exact Hascii.
      rewrite IH, consume_some; [reflexivity | simpl in Hlen; lia | assumption |].
      assert (1 <= length (if json.htmlSafeSet (byteZ c0) then [c0]
                           else json.escapeByte (byteZ c0)))%nat; [|lia].
      destruct (json.htmlSafeSet (byteZ c0)); [simpl; lia|].
      unfold json.escapeByte.
      repeat match goal with
             | |- context [if ?b then _ else _] => destruct b
             end; simpl; lia.
    + (* a byte of 0x80 or more *)
      destruct (utf8.DecodeRuneInString (c0 :: r0)) as [r size] eqn:Hdec.
      destruct ((r =? utf8.RuneError) && (size =? 1)%nat) eqn:Herr; [discriminate|].
      assert (Hhigh : 0x80 <= byteZ c0) by (unfold utf8.RuneSelf in Hascii; lia).
      destruct (Decode_multibyte _ _ _ _ Hhigh Hdec) as [Hbad | Hgood].
      { injection Hbad as -> ->. discriminate Herr. }
      destruct (decodesTo_split _ _ _ Hgood) as [Hfirst Hsplit].
      pose proof Hgood as (t & _ & Hsize & Hsz & _).
      assert (Hskip : (length (skipn size (c0 :: r0)) <= fuel)%nat).
      { rewrite length_skipn. simpl in Hlen |- *. lia. }
      destruct m as [|m]; [lia|].
      destruct ((r =? 8232) || (r =? 8233)) eqn:Hsep.
      * rewrite !length_app in Hm. rewrite <- !app_assoc.
        rewrite unquote_separator_step by lia.
        rewrite IH, consume_some; [ | assumption | assumption | simpl in Hm; lia].
        now rewrite <- Hsplit.
      * rewrite length_app in Hm. rewrite <- app_assoc, Hfirst.
        rewrite (unquote_rune_step _ _ _ _ _ Hgood).
        rewrite IH, consume_some; [ | assumption | assumption | ].
        -- now rewrite <- Hsplit.
        -- rewrite Hfirst, Hsize in Hm. lia.
Qed.

(** The decoder reads back the string literal [appendString] writes. *)
Lemma parseString_appendString (src rest : gostring) :
  utf8.ValidString src = true ->
  json.parseString (json.appendString src true ++ rest) = Some (src, rest).
Proof.
  intros Hvalid. unfold json.appendString, json.parseString.
  cbn [app]. change (Ascii.eqb DQ DQ) with true. cbv iota.
  rewrite <- app_assoc. cbn [app].
  apply unquote_appendStringLoop; [lia | exact Hvalid |].
  rewrite length_app. simpl. lia.
Qed.

End JsonRoundTrip.

Section JsonOutput.
Local Open Scope Z_scope.



Lemma skipSpace_nonspace (c : ascii) (t : gostring) :
  json.isSpace c = false -> json.skipSpace (c :: t) = c :: t.
Proof. intros H. cbn [json.skipSpace]. now rewrite H. Qed.

Lemma skipSpace_appendString (src t : gostring) :
  json.skipSpace (json.appendString src true ++ t) = json.appendString src true ++ t.
Proof. reflexivity. Qed.

(** The decoder on an object of two members as the encoder writes it: a
    key, a colon, a string, a comma, and the same again, up to the brace. *)
Lemma parseMembers_two (fuel : nat) (k1 v1 k2 v2 tail : gostring) :
  (2 <= fuel)%nat ->
  utf8.ValidString k1 = true -> utf8.ValidString v1 = true ->
  utf8.ValidString k2 = true -> utf8.ValidString v2 = true ->
  json.parseMembers fuel
    (json.appendString k1 true ++ ":"%char :: json.appendString v1 true
     ++ ","%char :: json.appendString k2 true ++ ":"%char :: json.appendString v2 true
     ++ "}"%char :: tail)
  = Some ([(k1, v1); (k2, v2)], tail).
Proof.
  intros Hfuel Hk1 Hv1 Hk2 Hv2.
  destruct fuel as [|[|fuel]]; [lia | lia |].
  cbn [json.parseMembers].
  rewrite (parseString_appendString k1) by assumption.
  rewrite skipSpace_nonspace by reflexivity.
  change (Ascii.eqb ":" ":") with true. cbv iota.
  rewrite skipSpace_appendString, (parseString_appendString v1) by assumption.
  rewrite skipSpace_nonspace by reflexivity.
  change (Ascii.eqb "," ",") with true. cbv iota.
  rewrite skipSpace_appendString, (parseString_appendString k2) by assumption.
  rewrite skipSpace_nonspace by reflexivity.
  change (Ascii.eqb ":" ":") with true. cbv iota.
  rewrite skipSpace_appendString, (parseString_appendString v2) by assumption.
  rewrite skipSpace_nonspace by reflexivity.
  reflexivity.
Qed.

Lemma parseObject_two (k1 v1 k2 v2 tail : gostring) :
  utf8.ValidString k1 = true -> utf8.ValidString v1 = true ->
  utf8.ValidString k2 = true -> utf8.ValidString v2 = true ->
  json.parseObject
    ("{"%char :: json.appendString k1 true ++ ":"%char :: json.appendString v1 true
     ++ ","%char :: json.appendString k2 true ++ ":"%char :: json.appendString v2 true
     ++ "}"%char :: tail)
  = Some ([(k1, v1); (k2, v2)], tail).
Proof.
  intros Hk1 Hv1 Hk2 Hv2. unfold json.parseObject.
  rewrite skipSpace_nonspace by reflexivity.
  change (Ascii.eqb "{" "{") with true. cbv iota.
  rewrite skipSpace_appendString.
  remember (json.appendString k1 true ++ ":"%char :: json.appendString v1 true
            ++ ","%char :: json.appendString k2 true ++ ":"%char
            :: json.appendString v2 true ++ "}"%char :: tail) as ms eqn:Hms.
  assert (Hcons : ms = DQ :: tl ms) by (subst ms; reflexivity).
  rewrite Hcons. change (Ascii.eqb DQ "}") with false. cbv iota.
  rewrite <- Hcons. subst ms.
  apply parseMembers_two; try assumption.
  unfold json.appendString. cbn [app length].
  rewrite !length_app. cbn [length]. lia.
Qed.

End JsonOutput.

(** ** strconv.Quote on plain names *)

Lemma quoteLoop_plain (tbl : Z -> bool) (fuel : nat) (s : gostring) :
  (length s <= fuel)%nat -> forallb plainByte s = true ->
  strconv.quoteLoop tbl fuel s (byteZ DQ) = s.
Proof.
  revert s. induction fuel as [|fuel IH]; intros [|c s] Hlen Hs; simpl in *;
    try reflexivity; try lia.
  apply andb_true_iff in Hs as [Hc Hs].
  unfold plainByte in Hc. cbv zeta in Hc.
  pose proof (byteZ_range c) as Hr.
  destruct (utf8.RuneSelf <=? byteZ c)%Z eqn:E.
  { unfold utf8.RuneSelf in E. lia. }
  replace ((byteZ c =? utf8.RuneError)%Z) with false
    by (unfold utf8.RuneError; lia).
  simpl. unfold strconv.appendEscapedRune, strconv.IsPrint.
  change (byteZ DQ) with 34%Z. change (byteZ BS) with 92%Z.
  replace (byteZ c =? 34)%Z with false by lia.
  replace (byteZ c =? 92)%Z with false by lia.
  replace (byteZ c <=? 255)%Z with true by lia.
  replace (32 <=? byteZ c)%Z with true by lia.
  replace (byteZ c <=? 126)%Z with true by lia.
  simpl. unfold utf8.AppendRune, utf8.rune1Max.
  replace (0 <=? byteZ c)%Z with true by lia.
  replace (byteZ c <=? 127)%Z with true by lia.
  simpl. rewrite Zbyte_byteZ. f_equal. apply IH; [lia|assumption].
Qed.

Lemma Quote_plain (tbl : Z -> bool) (s : gostring) :
  forallb plainByte s = true -> strconv.Quote tbl s = DQ :: s ++ [DQ].
Proof.
  intros H. unfold strconv.Quote. now rewrite quoteLoop_plain.
Qed.

(** ** Init *)

Section InitProperties.

Context {Srv TLSConfig Chan Reader : Type}.
Variable isPrintTable : Z -> bool.

Implicit Types (s : GRPCServer Srv TLSConfig Chan Reader).
Implicit Types (entries pre post : list (gostring * Plugin Srv)).
Implicit Types (raw : Plugin Srv) (ptr : option Srv) (k : gostring).
Implicit Types (p : GRPCPlugin Srv).

Lemma Errorf_not_compatible k :
  fmt.Errorf isPrintTable (str "%q is not a GRPC-compatibile plugin") [fmt.OpString k]
  = strconv.Quote isPrintTable k ++ str " is not a GRPC-compatibile plugin".
Proof. reflexivity. Qed.

Lemma Errorf_registering k (e : gostring) :
  fmt.Errorf isPrintTable (str "error registring %q: %s") [fmt.OpString k; fmt.OpError e]
  = str "error registring " ++ strconv.Quote isPrintTable k ++ str ": " ++ e.
Proof.
  unfold fmt.Errorf. cbn -[strconv.Quote]. now rewrite app_nil_r.
Qed.

(** The source's call of a method does what the plugin's method does. *)
Lemma callGRPCServer_runs p ptr :
  methodRuns p ptr (fst (callGRPCServer p ptr)) (snd (callGRPCServer p ptr)).
Proof.
  destruct ptr as [srv|]; cbn [callGRPCServer].
  - destruct (GRPCServer_method p srv) as [srv' err] eqn:Hm. now constructor.
  - constructor.
Qed.

Lemma methodRuns_call p ptr ptr' (err : error) :
  methodRuns p ptr ptr' err -> callGRPCServer p ptr = (ptr', err).
Proof.
  intros [srv srv' e Hm|]; cbn [callGRPCServer]; [now rewrite Hm | reflexivity].
Qed.

(** The loop either registers every entry, or registers the entries before
    some entry and stops there. *)
Lemma registerPlugins_cases ptr entries :
  (exists ptr',
     registerPlugins (TLSConfig:=TLSConfig) isPrintTable ptr entries
     = (ptr', map CallGRPCServer (map fst entries), None) /\
     attached ptr entries ptr')
  \/
  (exists pre k raw post ptr1 ptr' msg,
     entries = pre ++ (k, raw) :: post /\
     attached ptr pre ptr1 /\
     registerPlugins (TLSConfig:=TLSConfig) isPrintTable ptr entries
     = (ptr', map CallGRPCServer (map fst pre) ++ attempted k raw, Some msg) /\
     stoppedAt isPrintTable ptr1 k raw ptr' msg).
Proof.
  revert ptr. induction entries as [|[k raw] rest IH]; intros ptr.
  - left. exists ptr. split; [reflexivity | constructor].
  - cbn [registerPlugins].
    destruct (assertGRPCPlugin raw) as [p|] eqn:Hraw.
    + pose proof (callGRPCServer_runs p ptr) as Hrun.
      destruct (callGRPCServer p ptr) as [ptr1 err] eqn:Hcall.
      cbn [fst snd] in Hrun. destruct err as [e|].
      * right. exists [], k, raw, rest, ptr, ptr1.
        eexists. split; [reflexivity|]. split; [constructor|]. split.
        -- unfold attempted. rewrite Hraw. reflexivity.
        -- right. exists p, e. split; [assumption|]. split; [assumption|].
           apply Errorf_registering.
      * destruct (IH ptr1)
          as [(ptr' & Heq & Hall)
             | (pre & k' & raw' & post & ptr2 & ptr' & msg & -> & Hpre & Heq & Hstop)].
        -- left. exists ptr'. rewrite Heq. split; [reflexivity|].
           econstructor; eassumption.
        -- right. exists ((k, raw) :: pre), k', raw', post, ptr2, ptr', msg.
           rewrite Heq. split; [reflexivity|].
           split; [econstructor; eassumption|]. split; [reflexivity | assumption].
    + right. exists [], k, raw, rest, ptr, ptr.
      eexists. split; [reflexivity|]. split; [constructor|]. split.
      * unfold attempted. rewrite Hraw. reflexivity.
      * left. split; [assumption|]. split; [reflexivity|].
        apply Errorf_not_compatible.
Qed.

(** No plugin call turns a nil server pointer into a server, or a server
    into nil. *)
Lemma registerPlugins_pointer ptr entries :
  fst (fst (registerPlugins (TLSConfig:=TLSConfig) isPrintTable ptr entries)) = None <-> ptr = None.
Proof.
  revert ptr. induction entries as [|[k raw] rest IH]; intros ptr.
  - reflexivity.
  - cbn [registerPlugins]. destruct (assertGRPCPlugin raw) as [p|]; [|reflexivity].
    assert (Hc : fst (callGRPCServer p ptr) = None <-> ptr = None).
    { unfold callGRPCServer. destruct ptr as [srv|]; [|reflexivity].
      destruct (GRPCServer_method p srv). simpl. split; discriminate. }
    destruct (callGRPCServer p ptr) as [ptr1 err]. simpl in Hc.
    destruct err as [e|]; [exact Hc|].
    specialize (IH ptr1).
    destruct (registerPlugins (TLSConfig:=TLSConfig) isPrintTable ptr1 rest) as [[ptr2 cs] res].
    simpl in *. now rewrite IH.
Qed.

Lemma stoppedAt_names_entry ptr k raw ptr' msg :
  stoppedAt isPrintTable ptr k raw ptr' msg ->
  Contains msg (strconv.Quote isPrintTable k) = true.
Proof.
  intros [(_ & _ & ->) | (p & e & _ & _ & ->)].
  - apply (Contains_middle []).
  - apply Contains_middle.
Qed.

Lemma stoppedAt_names_plain ptr k raw ptr' msg :
  stoppedAt isPrintTable ptr k raw ptr' msg ->
  forallb plainByte k = true -> Contains msg k = true.
Proof.
  intros Hstop Hplain. apply Contains_spec.
  destruct Hstop as [(_ & _ & ->) | (p & e & _ & _ & ->)];
    rewrite (Quote_plain _ _ Hplain).
  - exists [DQ]. eexists. simpl. rewrite <- app_assoc. reflexivity.
  - exists (str "error registring " ++ [DQ]). eexists.
    rewrite <- !app_assoc. simpl. rewrite <- app_assoc. reflexivity.
Qed.

Lemma Init_unfold s newServer entries :
  Server s = Some newServer ->
  Init isPrintTable s entries =
  let opts := serverOptions (TLS s) in
  let res := registerPlugins (TLSConfig:=TLSConfig) isPrintTable (newServer opts) entries in
  {| after := set_server (set_server s (newServer opts)) (fst (fst res));
     calls := CallServer opts :: snd (fst res);
     outcome := Returned (snd res) |}.
Proof.
  intros H. unfold Init. rewrite H. simpl.
  destruct (registerPlugins _ _ _) as [[ptr cs] err]. reflexivity.
Qed.

(** When the methods of the entries all return nil in turn, the loop calls
    them all and returns nil. *)
Lemma registerPlugins_attached ptr entries ptr' :
  attached ptr entries ptr' ->
  registerPlugins (TLSConfig:=TLSConfig) isPrintTable ptr entries
  = (ptr', map CallGRPCServer (map fst entries), None).
Proof.
  induction 1 as [ptr | ptr k raw p ptr1 rest ptr' Hraw Hrun _ IH]; [reflexivity|].
  cbn [registerPlugins]. rewrite Hraw, (methodRuns_call _ _ _ _ Hrun), IH.
  reflexivity.
Qed.

Lemma registerPlugins_app ptr pre ptr1 rest :
  attached ptr pre ptr1 ->
  registerPlugins (TLSConfig:=TLSConfig) isPrintTable ptr (pre ++ rest)
  = let '(ptr', cs, err) := registerPlugins isPrintTable ptr1 rest in
    (ptr', map CallGRPCServer (map fst pre) ++ cs, err).
Proof.
  induction 1 as [ptr | ptr k raw p ptr1 pre ptr2 Hraw Hrun _ IH].
  - cbn [app map]. destruct (registerPlugins _ _ _) as [[ptr' cs] err]. reflexivity.
  - cbn [app registerPlugins]. rewrite Hraw, (methodRuns_call _ _ _ _ Hrun), IH.
    destruct (registerPlugins _ ptr2 rest) as [[ptr' cs] err]. reflexivity.
Qed.

(** Every entry of a run of registrations implements GRPCPlugin, and its
    method has returned nil on the server it was called on. *)
Lemma attached_elem ptr entries ptr' k raw :
  attached ptr entries ptr' -> (k, raw) ∈ entries ->
  exists p ptr1 ptr2, assertGRPCPlugin raw = Some p /\ methodRuns p ptr1 ptr2 None.
Proof.
  induction 1 as [ptr | ptr k1 raw1 p ptr1 rest ptr' Hraw Hrun _ IH]; intros Hin.
  - now apply not_elem_of_nil in Hin.
  - apply elem_of_cons in Hin as [[= -> ->] | Hin]; eauto.
Qed.

(** The surfaces after a run of registrations by plugins that keep the
    contract: one more for each entry, in the order of the run. *)
Lemma attached_surfaces (surfaces : Srv -> list gostring) entries :
  forall (srv : Srv) ptr',
    Forall (fun e => registersOnSuccess surfaces (fst e) (snd e)) entries ->
    attached (Some srv) entries ptr' ->
    exists srv', ptr' = Some srv' /\ surfaces srv' = surfaces srv ++ map fst entries.
Proof.
  induction entries as [|[k raw] rest IH]; intros srv ptr' Hall Hatt.
  - inversion Hatt; subst. exists srv. now rewrite app_nil_r.
  - inversion Hatt as [|? ? ? p ptr1 ? ? Hraw Hrun Hrest]; subst.
    inversion Hall as [|? ? Hk Hall']; subst.
    inversion Hrun as [? srv1 ? Hm|]; subst.
    destruct (IH _ _ Hall' Hrest) as (srv' & -> & Hs).
    exists srv'. split; [reflexivity|].
    rewrite Hs, (Hk p srv srv1 Hraw Hm). cbn [map fst]. now rewrite <- app_assoc.
Qed.

Lemma rangeOrder_lookup s entries k raw :
  rangeOrder (Plugins s) entries -> ((k, raw) ∈ entries <-> Plugins s !! k = Some raw).
Proof.
  intros Hperm. unfold rangeOrder in Hperm. rewrite Hperm.
  apply elem_of_map_to_list.
Qed.

Lemma rangeOrder_NoDup s entries :
  rangeOrder (Plugins s) entries -> NoDup (map fst entries).
Proof.
  intros Hperm. unfold rangeOrder in Hperm.
  change (map fst entries) with (entries.*1). rewrite Hperm.
  apply NoDup_fst_map_to_list.
Qed.

(** C1 (amended): on a bootstrap whose Server function is not nil, when the
    map holds an entry that does not implement GRPCPlugin, or one whose
    method returns an error on every server, Init returns an error for every
    iteration order. The error is raised at the first entry [(k, raw)] of
    the order that lacks the capability or whose method returns an error:
    the entries before it were registered, each by a call of its method, on
    the server as the one before left it, that returned nil. The message
    contains the name [k] as the verb [%q] quotes it, and the name itself
    when the name is made of plain printable characters. The methods called
    are those of the entries before [k], in order, and that of [k] when it
    has one: no entry that the iteration yields after [k] is called, and the
    server handle is the server as the entries up to [k] left it. *)
Theorem Init_fails_fast s newServer entries k0 raw0 :
  Server s = Some newServer ->
  rangeOrder (Plugins s) entries ->
  Plugins s !! k0 = Some raw0 ->
  lacksCapability raw0 \/ attachFails raw0 ->
  exists pre k raw post ptr ptr' msg,
    entries = pre ++ (k, raw) :: post /\
    attached (newServer (serverOptions (TLS s))) pre ptr /\
    stoppedAt isPrintTable ptr k raw ptr' msg /\
    outcome (Init isPrintTable s entries) = Returned (Some msg) /\
    Contains msg (strconv.Quote isPrintTable k) = true /\
    (forallb plainByte k = true -> Contains msg k = true) /\
    calls (Init isPrintTable s entries)
    = CallServer (serverOptions (TLS s))
      :: map CallGRPCServer (map fst pre) ++ attempted k raw /\
    server (after (Init isPrintTable s entries)) = ptr' /\
    (forall k', k' ∈ map fst post ->
                CallGRPCServer k' ∉ calls (Init isPrintTable s entries)).
Proof.
  intros Hsrv Hperm Hk0 Hbad.
  rewrite (Init_unfold _ _ _ Hsrv). cbn zeta. cbn [outcome calls after].
  destruct (registerPlugins_cases (newServer (serverOptions (TLS s))) entries)
    as [(ptr' & Heq & Hall)
       | (pre & k & raw & post & ptr & ptr' & msg & Hsplit & Hpre & Heq & Hstop)].
  - exfalso.
    assert (Hin : (k0, raw0) ∈ entries) by (now apply (rangeOrder_lookup s)).
    destruct (attached_elem _ _ _ _ _ Hall Hin) as (p & ptr1 & ptr2 & Hp & Hnil).
    destruct Hbad as [Hlack | (p' & Hp' & Hfail)].
    + unfold lacksCapability in Hlack. congruence.
    + assert (p' = p) by congruence. subst p'. now apply (Hfail _ _ _ Hnil).
  - exists pre, k, raw, post, ptr, ptr', msg. rewrite Heq.
    cbn [fst snd server set_server].
    split; [assumption|]. split; [assumption|]. split; [assumption|].
    split; [reflexivity|].
    split; [eapply stoppedAt_names_entry; eassumption|].
    split; [eapply stoppedAt_names_plain; eassumption|].
    split; [reflexivity|]. split; [reflexivity|].
    intros k' Hk' Hcalled.
    pose proof (rangeOrder_NoDup _ _ Hperm) as Hnd.
    rewrite Hsplit, map_app in Hnd. cbn [map fst] in Hnd.
    apply NoDup_app in Hnd as (_ & Hdisj & Hnd2).
    apply NoDup_cons in Hnd2 as [Hk _].
    apply elem_of_cons in Hcalled as [Hcalled | Hcalled]; [discriminate|].
    apply elem_of_app in Hcalled as [Hcalled | Hcalled].
    + apply list_elem_of_fmap in Hcalled as (k'' & [= ->] & Hin).
      apply (Hdisj _ Hin). now right.
    + unfold attempted in Hcalled. destruct (assertGRPCPlugin raw).
      * apply list_elem_of_singleton in Hcalled as [= ->]. contradiction.
      * now apply not_elem_of_nil in Hcalled.
Qed.

(** C2 (amended): on a bootstrap whose Server function is not nil, for an
    iteration order in which every entry implements GRPCPlugin and the
    method of every entry, called on the server the factory returned as the
    entries before left it, returns nil, Init returns nil. It has called the
    factory once and then the method of every entry once: the names called
    are the names of the map, each once; the server handle is the server
    after these calls. The server holds what the methods registered: for
    plugins whose methods add one surface under the plugin's name each time
    they return nil, the surfaces are those the factory's server had
    followed by one per plugin name. *)
Theorem Init_registers_every_plugin s newServer entries ptr :
  Server s = Some newServer ->
  rangeOrder (Plugins s) entries ->
  attached (newServer (serverOptions (TLS s))) entries ptr ->
  outcome (Init isPrintTable s entries) = Returned None /\
  calls (Init isPrintTable s entries)
  = CallServer (serverOptions (TLS s)) :: map CallGRPCServer (map fst entries) /\
  server (after (Init isPrintTable s entries)) = ptr /\
  NoDup (map fst entries) /\
  (forall k, k ∈ map fst entries <-> is_Some (Plugins s !! k)) /\
  (forall (surfaces : Srv -> list gostring) (srv0 : Srv),
     newServer (serverOptions (TLS s)) = Some srv0 ->
     (forall k raw, Plugins s !! k = Some raw -> registersOnSuccess surfaces k raw) ->
     exists srv, ptr = Some srv /\ surfaces srv = surfaces srv0 ++ map fst entries).
Proof.
  intros Hsrv Hperm Hall.
  rewrite (Init_unfold _ _ _ Hsrv). cbn zeta. cbn [outcome calls after].
  rewrite (registerPlugins_attached _ _ _ Hall). cbn [fst snd server set_server].
  split; [reflexivity|]. split; [reflexivity|]. split; [reflexivity|].
  split; [now apply (rangeOrder_NoDup s)|]. split.
  - intros k. split.
    + intros Hin. apply list_elem_of_fmap in Hin as ([k' raw] & -> & Hin).
      exists raw. now apply (rangeOrder_lookup s entries).
    + intros [raw Hraw]. apply list_elem_of_fmap. exists (k, raw).
      split; [reflexivity|]. now apply (rangeOrder_lookup s entries).
  - intros surfaces srv0 Hsrv0 Hcontract. rewrite Hsrv0 in Hall.
    apply (attached_surfaces surfaces entries srv0 ptr); [|exact Hall].
    apply Forall_forall. intros [k raw] Hin. cbn [fst snd].
    apply (Hcontract k). now apply (rangeOrder_lookup s entries).
Qed.

(** C5 (amended): with the server handle nil before Init, a nil factory
    makes Init panic with the handle still nil; otherwise Init returns, and
    afterwards the handle is nil exactly when the factory returned nil,
    whether Init returned an error or not. *)
Theorem Init_server_handle s entries :
  server s = None ->
  match Server s with
  | None =>
    outcome (Init isPrintTable s entries) = Panicked NilFunction /\
    server (after (Init isPrintTable s entries)) = None
  | Some newServer =>
    (exists err, outcome (Init isPrintTable s entries) = Returned err) /\
    (server (after (Init isPrintTable s entries)) = None
     <-> newServer (serverOptions (TLS s)) = None)
  end.
Proof.
  intros Hnil. destruct (Server s) as [newServer|] eqn:Hsrv.
  - rewrite (Init_unfold _ _ _ Hsrv). cbn zeta. cbn [outcome after].
    split; [eauto|]. cbn [server set_server].
    apply registerPlugins_pointer.
  - unfold Init. rewrite Hsrv. split; [reflexivity | exact Hnil].
Qed.

(** C6 (amended): on a bootstrap whose Server function is not nil, Init
    calls the factory once, before any plugin, with no option when the TLS
    configuration is nil and with the one option
    [grpc.Creds(credentials.NewTLS(s.TLS))] when it is set. The plugins are
    registered on the server the factory returned for these options: when
    Init returns, the server handle is that server after the loop, and an
    error it returns is the error of an entry of the loop, not of the
    options. With no plugin in the map Init returns nil and the handle is
    the server the factory returned. *)
Theorem Init_transport_options s newServer entries :
  Server s = Some newServer ->
  rangeOrder (Plugins s) entries ->
  exists opts cs,
    opts = match TLS s with
           | None => []
           | Some c => [Creds (NewTLS c)]
           end /\
    calls (Init isPrintTable s entries) = CallServer opts :: cs /\
    Forall (fun c => exists k, c = CallGRPCServer k) cs /\
    (forall err,
       outcome (Init isPrintTable s entries) = Returned err ->
       loopResult isPrintTable (newServer opts) entries
                  (server (after (Init isPrintTable s entries))) err) /\
    (Plugins s = ∅ ->
     outcome (Init isPrintTable s entries) = Returned None /\ cs = [] /\
     server (after (Init isPrintTable s entries)) = newServer opts).
Proof.
  intros Hsrv Hperm. rewrite (Init_unfold _ _ _ Hsrv).
  cbn zeta. cbn [outcome calls after].
  assert (Hopts : serverOptions (TLS s)
                  = match TLS s with
                    | None => []
                    | Some c => [Creds (NewTLS c)]
                    end) by (unfold serverOptions; now destruct (TLS s)).
  rewrite <- Hopts.
  assert (Hempty : Plugins s = ∅ -> entries = []).
  { intros Hm. unfold rangeOrder in Hperm. rewrite Hm, map_to_list_empty in Hperm.
    now apply Permutation_nil_r in Hperm. }
  destruct (registerPlugins_cases (newServer (serverOptions (TLS s))) entries)
    as [(ptr' & Heq & Hall)
       | (pre & k & raw & post & ptr & ptr' & msg & Hsplit & Hpre & Heq & Hstop)];
    rewrite Heq; cbn [fst snd server set_server].
  - exists (serverOptions (TLS s)), (map CallGRPCServer (map fst entries)).
    split; [reflexivity|]. split; [reflexivity|]. split.
    { apply Forall_forall. intros c Hc.
      apply list_elem_of_fmap in Hc as (k & -> & _). eauto. }
    split; [intros err [= <-]; exact Hall|].
    intros Hm. rewrite (Hempty Hm) in Hall |- *. inversion Hall; subst.
    repeat split.
  - exists (serverOptions (TLS s)),
           (map CallGRPCServer (map fst pre) ++ attempted k raw).
    split; [reflexivity|]. split; [reflexivity|]. split.
    { apply Forall_forall. intros c Hc. apply elem_of_app in Hc as [Hc|Hc].
      - apply list_elem_of_fmap in Hc as (k' & -> & _). eauto.
      - unfold attempted in Hc. destruct (assertGRPCPlugin raw).
        + apply list_elem_of_singleton in Hc as ->. eauto.
        + now apply not_elem_of_nil in Hc. }
    split; [intros err [= <-]; exists pre, k, raw, post, ptr; auto|].
    intros Hm. apply Hempty in Hm. subst entries.
    now destruct pre.
Qed.

(** C10: whatever the outcome of Init, the fields Plugins, Server, TLS,
    DoneCh, Stdout, Stderr and config of the bootstrap are afterwards what
    they were before: Init assigns the field server only. *)
Theorem Init_frame s entries :
  Plugins (after (Init isPrintTable s entries)) = Plugins s /\
  Server (after (Init isPrintTable s entries)) = Server s /\
  TLS (after (Init isPrintTable s entries)) = TLS s /\
  DoneCh (after (Init isPrintTable s entries)) = DoneCh s /\
  Stdout (after (Init isPrintTable s entries)) = Stdout s /\
  Stderr (after (Init isPrintTable s entries)) = Stderr s /\
  config (after (Init isPrintTable s entries)) = config s.
Proof.
  unfold Init. destruct (Server s) as [newServer|] eqn:Hsrv.
  - cbn zeta. destruct (registerPlugins _ _ _) as [[ptr cs] err].
    cbn. rewrite Hsrv. repeat split.
  - cbn. rewrite Hsrv. repeat split.
Qed.

(** X2: Init does not undo registrations. When the iteration meets an entry
    that does not implement GRPCPlugin after entries whose methods, called
    in turn on the server the factory returned, all returned nil, Init
    returns the error for that entry, and the server handle is the server
    the factory returned with the earlier plugins registered on it. *)
Theorem Init_keeps_earlier_registrations s newServer pre ptr k raw post :
  Server s = Some newServer ->
  attached (newServer (serverOptions (TLS s))) pre ptr ->
  lacksCapability raw ->
  outcome (Init isPrintTable s (pre ++ (k, raw) :: post))
  = Returned (Some (strconv.Quote isPrintTable k
                    ++ str " is not a GRPC-compatibile plugin")) /\
  server (after (Init isPrintTable s (pre ++ (k, raw) :: post))) = ptr /\
  calls (Init isPrintTable s (pre ++ (k, raw) :: post))
  = CallServer (serverOptions (TLS s)) :: map CallGRPCServer (map fst pre).
Proof.
  intros Hsrv Hpre Hraw. unfold lacksCapability in Hraw.
  rewrite (Init_unfold _ _ _ Hsrv). cbn zeta. cbn [outcome calls after].
  rewrite (registerPlugins_app _ _ _ _ Hpre). cbn [registerPlugins].
  rewrite Hraw, Errorf_not_compatible. cbn [fst snd server set_server].
  now rewrite app_nil_r.
Qed.

End InitProperties.

(** ** Init on the example bootstraps *)

Lemma rangeOrder_singleton {Srv : Type} (k : gostring) (raw : Plugin Srv) :
  rangeOrder {[ k := raw ]} [(k, raw)].
Proof. unfold rangeOrder. now rewrite map_to_list_singleton. Qed.

Lemma rangeOrder_list_to_map {Srv : Type} (entries : list (gostring * Plugin Srv)) :
  NoDup (map fst entries) -> rangeOrder (list_to_map entries) entries.
Proof.
  intros Hnd. unfold rangeOrder. symmetry. now apply map_to_list_to_map.
Qed.

(** The names of a list of entries written out are distinct. *)
Ltac distinct_names :=
  repeat constructor; intros H;
  repeat (apply elem_of_cons in H as [H | H]; [discriminate H|]);
  now apply not_elem_of_nil in H.

Lemma rangeOrder_crowd : rangeOrder (Plugins crowdBootstrap) crowdEntries.
Proof. apply rangeOrder_list_to_map. distinct_names. Qed.

Lemma rangeOrder_crowdAlt : rangeOrder (Plugins crowdBootstrap) crowdEntriesAlt.
Proof.
  unfold rangeOrder. etransitivity; [|exact rangeOrder_crowd].
  apply perm_skip, perm_swap.
Qed.

Lemma rangeOrder_named : rangeOrder (Plugins namedBootstrap) namedEntries.
Proof. apply rangeOrder_list_to_map. distinct_names. Qed.

Lemma failingMethods_fail (e : gostring) :
  attachFails (ImplementsGRPC (failingMethods e)).
Proof.
  eexists. split; [reflexivity|]. intros ptr ptr' err Hrun.
  inversion Hrun as [srv srv' err' Hm|]; subst.
  - cbn in Hm. injection Hm as _ <-. discriminate.
  - discriminate.
Qed.

(** The plugin echo of the examples registers its surface on the server the
    factory returned. *)
Lemma attached_echo :
  attached (demoFactory []) [(str "echo", strictPlugin (str "echo"))]
           (Some [str "echo"]).
Proof.
  eapply attached_next; [reflexivity | apply runs_on_server; reflexivity |].
  constructor.
Qed.

Lemma attached_named :
  attached (demoFactory (serverOptions (TLS namedBootstrap))) namedEntries
           (Some [str "echo"; str "kv"]).
Proof.
  eapply attached_next; [reflexivity | apply runs_on_server; reflexivity |].
  eapply attached_next; [reflexivity | apply runs_on_server; reflexivity |].
  constructor.
Qed.

Lemma Init_fails_fast_witness :
  (outcome (Init demoTable crowdBootstrap crowdEntries)
   = Returned (Some (str "error registring " ++ [DQ] ++ str "kv" ++ [DQ]
                     ++ str ": no store")) /\
   exists pre k raw post ptr ptr' msg,
     crowdEntries = pre ++ (k, raw) :: post /\
     attached (demoFactory (serverOptions (TLS crowdBootstrap))) pre ptr /\
     stoppedAt demoTable ptr k raw ptr' msg /\
     outcome (Init demoTable crowdBootstrap crowdEntries) = Returned (Some msg) /\
     Contains msg (strconv.Quote demoTable k) = true /\
     (forallb plainByte k = true -> Contains msg k = true) /\
     calls (Init demoTable crowdBootstrap crowdEntries)
     = CallServer (serverOptions (TLS crowdBootstrap))
       :: map CallGRPCServer (map fst pre) ++ attempted k raw /\
     server (after (Init demoTable crowdBootstrap crowdEntries)) = ptr' /\
     (forall k', k' ∈ map fst post ->
                 CallGRPCServer k' ∉ calls (Init demoTable crowdBootstrap crowdEntries)))
  /\
  (outcome (Init demoTable crowdBootstrap crowdEntriesAlt)
   = Returned (Some ([DQ] ++ str "bad" ++ [DQ]
                     ++ str " is not a GRPC-compatibile plugin")) /\
   exists pre k raw post ptr ptr' msg,
     crowdEntriesAlt = pre ++ (k, raw) :: post /\
     attached (demoFactory (serverOptions (TLS crowdBootstrap))) pre ptr /\
     stoppedAt demoTable ptr k raw ptr' msg /\
     outcome (Init demoTable crowdBootstrap crowdEntriesAlt) = Returned (Some msg) /\
     Contains msg (strconv.Quote demoTable k) = true /\
     (forallb plainByte k = true -> Contains msg k = true) /\
     calls (Init demoTable crowdBootstrap crowdEntriesAlt)
     = CallServer (serverOptions (TLS crowdBootstrap))
       :: map CallGRPCServer (map fst pre) ++ attempted k raw /\
     server (after (Init demoTable crowdBootstrap crowdEntriesAlt)) = ptr' /\
     (forall k', k' ∈ map fst post ->
                 CallGRPCServer k' ∉ calls (Init demoTable crowdBootstrap crowdEntriesAlt))).
Proof.
  split; (split; [reflexivity|]).
  - apply (Init_fails_fast demoTable crowdBootstrap demoFactory crowdEntries
             (str "bad") OtherPlugin).
    + reflexivity.
    + exact rangeOrder_crowd.
    + apply (rangeOrder_lookup crowdBootstrap crowdEntries); [exact rangeOrder_crowd|].
      right. right. left.
    + left. reflexivity.
  - apply (Init_fails_fast demoTable crowdBootstrap demoFactory crowdEntriesAlt
             (str "kv") (ImplementsGRPC (failingMethods (str "no store")))).
    + reflexivity.
    + exact rangeOrder_crowdAlt.
    + apply (rangeOrder_lookup crowdBootstrap crowdEntries); [exact rangeOrder_crowd|].
      right. left.
    + right. apply failingMethods_fail.
Defined.

(** C1 as stated fails: for the one plugin named by [quotedName], which
    does not implement GRPCPlugin, the message of the error Init returns
    does not contain the name (it contains the name with a backslash before
    the double quote). *)
Lemma Init_message_quotes_the_name :
  rangeOrder (Plugins quotedBootstrap) quotedEntries /\
  Plugins quotedBootstrap !! quotedName = Some OtherPlugin /\
  lacksCapability (OtherPlugin : Plugin (list gostring)) /\
  exists msg,
    outcome (Init demoTable quotedBootstrap quotedEntries) = Returned (Some msg) /\
    Contains msg quotedName = false.
Proof.
  split; [apply rangeOrder_singleton|].
  split; [apply lookup_singleton_eq|].
  split; [reflexivity|].
  eexists. split; [reflexivity|]. vm_compute. reflexivity.
Qed.

(** The plugins of [namedEntries] keep the contract for the view that reads
    the surfaces off the example server. *)
Lemma named_contract (k : gostring) (raw : Plugin (list gostring)) :
  Plugins namedBootstrap !! k = Some raw ->
  registersOnSuccess (fun srv : list gostring => srv) k raw.
Proof.
  intros Hk.
  apply (rangeOrder_lookup namedBootstrap namedEntries _ _ rangeOrder_named) in Hk.
  intros p srv srv' Hp Hm.
  repeat (apply elem_of_cons in Hk as [[= -> ->] | Hk];
          [injection Hp as <-; cbn in Hm; now injection Hm as <-|]).
  now apply not_elem_of_nil in Hk.
Qed.

Lemma Init_registers_every_plugin_witness :
  rangeOrder (Plugins namedBootstrap) namedEntries /\
  attached (demoFactory (serverOptions (TLS namedBootstrap))) namedEntries
           (Some [str "echo"; str "kv"]) /\
  outcome (Init demoTable namedBootstrap namedEntries) = Returned None /\
  calls (Init demoTable namedBootstrap namedEntries)
  = CallServer (serverOptions (TLS namedBootstrap))
    :: map CallGRPCServer (map fst namedEntries) /\
  server (after (Init demoTable namedBootstrap namedEntries))
  = Some [str "echo"; str "kv"] /\
  NoDup (map fst namedEntries) /\
  (forall k, k ∈ map fst namedEntries <-> is_Some (Plugins namedBootstrap !! k)) /\
  (exists srv, Some [str "echo"; str "kv"] = Some srv /\
               srv = [] ++ map fst namedEntries).
Proof.
  split; [exact rangeOrder_named|]. split; [exact attached_named|].
  destruct (Init_registers_every_plugin demoTable namedBootstrap demoFactory namedEntries
              (Some [str "echo"; str "kv"]) eq_refl rangeOrder_named attached_named)
    as (Hout & Hcalls & Hserver & Hnd & Hnames & Hsurfaces).
  split; [exact Hout|]. split; [exact Hcalls|]. split; [exact Hserver|].
  split; [exact Hnd|]. split; [exact Hnames|].
  exact (Hsurfaces (fun srv => srv) [] eq_refl named_contract).
Defined.

(** C2 as stated fails. On [quietBootstrap] the one plugin implements
    GRPCPlugin and its method returns nil on every server: Init returns nil,
    and the server has no surface for the plugin. On [noFactoryBootstrap]
    the two plugins implement GRPCPlugin and their methods return nil on
    every server, and Init does not return: it panics on the nil Server
    function. *)
Lemma Init_success_without_surface :
  (rangeOrder (Plugins quietBootstrap) quietEntries /\
   Forall (fun e => exists p, assertGRPCPlugin (snd e) = Some p /\
                              forall srv, snd (GRPCServer_method p srv) = None)
          quietEntries /\
   outcome (Init demoTable quietBootstrap quietEntries) = Returned None /\
   calls (Init demoTable quietBootstrap quietEntries)
   = [CallServer []; CallGRPCServer (str "quiet")] /\
   server (after (Init demoTable quietBootstrap quietEntries)) = Some [])
  /\
  (rangeOrder (Plugins noFactoryBootstrap) namedEntries /\
   Forall (fun e => exists p, assertGRPCPlugin (snd e) = Some p /\
                              forall srv, snd (GRPCServer_method p srv) = None)
          namedEntries /\
   outcome (Init demoTable noFactoryBootstrap namedEntries) = Panicked NilFunction /\
   server (after (Init demoTable noFactoryBootstrap namedEntries)) = None).
Proof.
  split.
  - split; [apply rangeOrder_singleton|].
    split; [repeat constructor; eexists; split; reflexivity|].
    repeat split.
  - split; [apply rangeOrder_list_to_map; distinct_names|].
    split; [repeat constructor; eexists; split; reflexivity|].
    split; reflexivity.
Qed.

Lemma Init_server_handle_witness :
  server badBootstrap = None /\
  (exists err, outcome (Init demoTable badBootstrap badEntries) = Returned err) /\
  (server (after (Init demoTable badBootstrap badEntries)) = None
   <-> demoFactory (serverOptions (TLS badBootstrap)) = None).
Proof.
  split; [reflexivity|].
  exact (Init_server_handle demoTable badBootstrap badEntries eq_refl).
Defined.

(** C5 as stated fails: on [badBootstrap], whose server handle is nil, Init
    returns an error and the handle is afterwards the server the factory
    returned. *)
Lemma Init_failure_keeps_the_server :
  server badBootstrap = None /\
  exists msg,
    outcome (Init demoTable badBootstrap badEntries) = Returned (Some msg) /\
    server (after (Init demoTable badBootstrap badEntries)) = Some [].
Proof.
  split; [reflexivity|]. eexists. split; reflexivity.
Qed.

Lemma Init_transport_options_witness :
  (server (after (Init demoTable (markedBootstrap [] (Some tt)) [])) = Some [str "creds"] /\
   exists opts cs,
     opts = [Creds (NewTLS tt)] /\
     calls (Init demoTable (markedBootstrap [] (Some tt)) []) = CallServer opts :: cs /\
     Forall (fun c => exists k, c = CallGRPCServer k) cs /\
     (forall err,
        outcome (Init demoTable (markedBootstrap [] (Some tt)) []) = Returned err ->
        loopResult demoTable (markingFactory opts) []
                   (server (after (Init demoTable (markedBootstrap [] (Some tt)) []))) err) /\
     (Plugins (markedBootstrap [] (Some tt)) = ∅ ->
      outcome (Init demoTable (markedBootstrap [] (Some tt)) []) = Returned None /\ cs = [] /\
      server (after (Init demoTable (markedBootstrap [] (Some tt)) [])) = markingFactory opts))
  /\
  (server (after (Init demoTable (markedBootstrap [] None) [])) = Some [] /\
   exists opts cs,
     opts = [] /\
     calls (Init demoTable (markedBootstrap [] None) []) = CallServer opts :: cs /\
     Forall (fun c => exists k, c = CallGRPCServer k) cs /\
     (forall err,
        outcome (Init demoTable (markedBootstrap [] None) []) = Returned err ->
        loopResult demoTable (markingFactory opts) []
                   (server (after (Init demoTable (markedBootstrap [] None) []))) err) /\
     (Plugins (markedBootstrap [] None) = ∅ ->
      outcome (Init demoTable (markedBootstrap [] None) []) = Returned None /\ cs = [] /\
      server (after (Init demoTable (markedBootstrap [] None) [])) = markingFactory opts))
  /\
  (server (after (Init demoTable (markedBootstrap namedEntries (Some tt)) namedEntries)) = Some [str "creds"; str "echo"; str "kv"] /\
   exists opts cs,
     opts = [Creds (NewTLS tt)] /\
     calls (Init demoTable (markedBootstrap namedEntries (Some tt)) namedEntries) = CallServer opts :: cs /\
     Forall (fun c => exists k, c = CallGRPCServer k) cs /\
     (forall err,
        outcome (Init demoTable (markedBootstrap namedEntries (Some tt)) namedEntries) = Returned err ->
        loopResult demoTable (markingFactory opts) namedEntries
                   (server (after (Init demoTable (markedBootstrap namedEntries (Some tt)) namedEntries))) err) /\
     (Plugins (markedBootstrap namedEntries (Some tt)) = ∅ ->
      outcome (Init demoTable (markedBootstrap namedEntries (Some tt)) namedEntries) = Returned None /\ cs = [] /\
      server (after (Init demoTable (markedBootstrap namedEntries (Some tt)) namedEntries)) = markingFactory opts)).
Proof.
  split; [|split]; (split; [reflexivity|]).
  - apply (Init_transport_options demoTable (markedBootstrap [] (Some tt))
             markingFactory []); [reflexivity|].
    apply rangeOrder_list_to_map. constructor.
  - apply (Init_transport_options demoTable (markedBootstrap [] None)
             markingFactory []); [reflexivity|].
    apply rangeOrder_list_to_map. constructor.
  - apply (Init_transport_options demoTable (markedBootstrap namedEntries (Some tt))
             markingFactory namedEntries); [reflexivity|].
    apply rangeOrder_list_to_map. distinct_names.
Defined.

(** C6 as stated fails on a bootstrap whose Server function is nil, with
    the TLS configuration absent ([unsetBootstrap]) or present
    ([noFactoryBootstrap]): Init passes no option to a factory, it makes no
    call and panics. *)
Lemma Init_without_factory_passes_nothing :
  (Server unsetBootstrap = None /\ TLS unsetBootstrap = None /\
   rangeOrder (Plugins unsetBootstrap) [] /\
   calls (Init demoTable unsetBootstrap []) = [] /\
   outcome (Init demoTable unsetBootstrap []) = Panicked NilFunction)
  /\
  (Server noFactoryBootstrap = None /\ TLS noFactoryBootstrap = Some tt /\
   rangeOrder (Plugins noFactoryBootstrap) namedEntries /\
   calls (Init demoTable noFactoryBootstrap namedEntries) = [] /\
   outcome (Init demoTable noFactoryBootstrap namedEntries) = Panicked NilFunction).
Proof.
  split.
  - split; [reflexivity|]. split; [reflexivity|].
    split; [unfold rangeOrder; cbn; now rewrite map_to_list_empty|].
    split; reflexivity.
  - split; [reflexivity|]. split; [reflexivity|].
    split; [apply rangeOrder_list_to_map; distinct_names|].
    split; reflexivity.
Qed.

Lemma rangeOrder_mixed : rangeOrder (Plugins mixedBootstrap) mixedEntries.
Proof.
  unfold rangeOrder. symmetry. apply map_to_list_to_map.
  repeat constructor; intros H;
    repeat (apply elem_of_cons in H as [H | H]; [discriminate H|]);
    now apply not_elem_of_nil in H.
Qed.

Lemma Init_keeps_earlier_registrations_witness :
  rangeOrder (Plugins crowdBootstrap) crowdEntriesAlt /\
  attached (demoFactory (serverOptions (TLS crowdBootstrap)))
           [(str "echo", strictPlugin (str "echo"))] (Some [str "echo"]) /\
  outcome (Init demoTable crowdBootstrap crowdEntriesAlt)
  = Returned (Some (strconv.Quote demoTable (str "bad")
                    ++ str " is not a GRPC-compatibile plugin")) /\
  server (after (Init demoTable crowdBootstrap crowdEntriesAlt)) = Some [str "echo"] /\
  calls (Init demoTable crowdBootstrap crowdEntriesAlt)
  = CallServer (serverOptions (TLS crowdBootstrap))
    :: map CallGRPCServer (map fst [(str "echo", strictPlugin (str "echo"))]).
Proof.
  split; [exact rangeOrder_crowdAlt|]. split; [exact attached_echo|].
  apply (Init_keeps_earlier_registrations demoTable crowdBootstrap demoFactory
           [(str "echo", strictPlugin (str "echo"))] (Some [str "echo"])
           (str "bad") OtherPlugin
           [(str "kv", ImplementsGRPC (failingMethods (str "no store")))]).
  - reflexivity.
  - exact attached_echo.
  - reflexivity.
Defined.

(** X3: the scenario of one plugin named bad that does not implement
    GRPCPlugin: Init calls the factory, no plugin, and returns the error
    whose text is the name between double quotes followed by
    [ is not a GRPC-compatibile plugin]. *)
Lemma Init_scenario_bad_plugin :
  rangeOrder (Plugins badBootstrap) badEntries /\
  outcome (Init demoTable badBootstrap badEntries)
  = Returned (Some ([DQ] ++ str "bad" ++ [DQ] ++ str " is not a GRPC-compatibile plugin")) /\
  calls (Init demoTable badBootstrap badEntries) = [CallServer []].
Proof.
  split; [apply rangeOrder_singleton|]. split; reflexivity.
Qed.

(** ** Config *)

Section ConfigClaims.

Context {Srv TLSConfig Chan Reader : Type}.
Implicit Types (s : GRPCServer Srv TLSConfig Chan Reader).

Lemma Encode_config (c : GRPCServerConfig) (buf : gostring) :
  json.Encode buf (GRPCServerConfig_value c) = (buf ++ configLine c ++ [LF], None).
Proof.
  unfold json.Encode, GRPCServerConfig_value, configLine.
  cbn [json.reflectValue]. cbn [Ascii.eqb Bool.eqb]. cbv iota.
  unfold json.fieldKey. f_equal.
Qed.

Lemma Config_unfold s :
  Config s = {| after := s; calls := []; outcome := Returned (configLine (config s) ++ [LF]) |}.
Proof.
  unfold Config. rewrite Encode_config. reflexivity.
Qed.


Lemma decodeConfig_configLine (c : GRPCServerConfig) :
  utf8.ValidString (StdoutAddr c) = true ->
  utf8.ValidString (StderrAddr c) = true ->
  decodeConfig (configLine c ++ [LF]) = Some c.
Proof.
  intros Hout Herr. unfold decodeConfig, json.UnmarshalObject.
  assert (Hline :
    configLine c ++ [LF]
    = "{"%char :: json.appendString (str "stdout_addr") true
      ++ ":"%char :: json.appendString (StdoutAddr c) true
      ++ ","%char :: json.appendString (str "stderr_addr") true
      ++ ":"%char :: json.appendString (StderrAddr c) true
      ++ "}"%char :: [LF]).
  { unfold configLine.
    change (json.appendString (str "stdout_addr") true)
      with ([DQ] ++ str "stdout_addr" ++ [DQ]).
    change (json.appendString (str "stderr_addr") true)
      with ([DQ] ++ str "stderr_addr" ++ [DQ]).
    rewrite <- !app_assoc. reflexivity. }
  rewrite Hline, parseObject_two by (assumption || reflexivity).
  destruct c as [out err]. reflexivity.
Qed.

(** C3 (amended): when the two addresses of the configuration are valid
    UTF-8, Config returns a text from which the decoder reads exactly the
    configuration. (Bytes that are not valid UTF-8 are written as the escape
    of U+FFFD and are not read back.) *)
Theorem Config_round_trip s :
  utf8.ValidString (StdoutAddr (config s)) = true ->
  utf8.ValidString (StderrAddr (config s)) = true ->
  exists payload,
    outcome (Config s) = Returned payload /\
    decodeConfig payload = Some (config s).
Proof.
  intros Hout Herr. exists (configLine (config s) ++ [LF]).
  rewrite Config_unfold. split; [reflexivity|].
  now apply decodeConfig_configLine.
Qed.

(** C8: Config leaves the bootstrap as it was and calls no collaborator; a
    second call returns what the first returned, and the result depends on
    the config field only. *)
Theorem Config_idempotent s :
  after (Config s) = s /\
  calls (Config s) = [] /\
  outcome (Config (after (Config s))) = outcome (Config s) /\
  (forall s', config s' = config s -> outcome (Config s') = outcome (Config s)).
Proof.
  rewrite !Config_unfold. cbn [after calls outcome].
  repeat split. intros s' Hs'. now rewrite Config_unfold, Hs'.
Qed.

(** C9: for every pair of addresses the encoder returns no error on the
    configuration, whatever the buffer holds, so Config does not panic: it
    returns a string. *)
Theorem Config_never_panics s (buf : gostring) :
  snd (json.Encode buf (GRPCServerConfig_value (config s))) = None /\
  exists out, outcome (Config s) = Returned out.
Proof.
  rewrite Encode_config, Config_unfold. split; [reflexivity|]. eauto.
Qed.

End ConfigClaims.

(** The encoder does return an error on values of other shapes: a channel
    in place of an address is refused, and nothing is written. *)
Lemma Encode_unsupported :
  json.Encode [] (json.VStruct [(str "stdout_addr", json.VChan)])
  = ([], Some (json.UnsupportedTypeError json.VChan)).
Proof. reflexivity. Qed.

Lemma Config_round_trip_witness :
  exists payload,
    outcome (Config addressedBootstrap) = Returned payload /\
    decodeConfig payload = Some (config addressedBootstrap).
Proof.
  apply (Config_round_trip addressedBootstrap); reflexivity.
Defined.

(** C3 as stated fails: for the configuration whose first address is the
    byte 0xFF, the decoder reads from the text Config returns the three
    bytes of U+FFFD, not the address. *)
Lemma Config_round_trip_loses_invalid_bytes :
  exists payload,
    outcome (Config invalidBootstrap) = Returned payload /\
    decodeConfig payload
    = Some {| StdoutAddr := [ascii_of_nat 239; ascii_of_nat 191; ascii_of_nat 189];
              StderrAddr := [] |} /\
    decodeConfig payload <> Some (config invalidBootstrap).
Proof.
  eexists. split; [reflexivity|]. split; [vm_compute; reflexivity|].
  vm_compute. intros H. discriminate H.
Qed.

(** X4: the scenario of a configuration without addresses: Config returns
    the object with two empty strings and a line feed, and the decoder reads
    the empty addresses back. *)
Lemma Config_scenario_no_addresses :
  outcome (Config badBootstrap)
  = Returned (str "{" ++ [DQ] ++ str "stdout_addr" ++ [DQ] ++ str ":" ++ [DQ; DQ]
              ++ str "," ++ [DQ] ++ str "stderr_addr" ++ [DQ] ++ str ":" ++ [DQ; DQ]
              ++ str "}" ++ [LF]) /\
  decodeConfig (str "{" ++ [DQ] ++ str "stdout_addr" ++ [DQ] ++ str ":" ++ [DQ; DQ]
                ++ str "," ++ [DQ] ++ str "stderr_addr" ++ [DQ] ++ str ":" ++ [DQ; DQ]
                ++ str "}" ++ [LF])
  = Some noAddresses.
Proof.
  split; [reflexivity | vm_compute; reflexivity].
Qed.

(** * Further properties of the bootstrap *)

(** ** The text of the errors Init returns *)

Section QuoteOutput.
Local Open Scope Z_scope.

Lemma byteZ_Zbyte (z : Z) : 0 <= z < 256 -> byteZ (Zbyte z) = z.
Proof.
  intros Hz. unfold byteZ, Zbyte. rewrite Z.mod_small by lia.
  rewrite N_ascii_embedding by lia. lia.
Qed.

Lemma Forall_high_Zbyte (zs : list Z) :
  Forall (fun z => 0x80 <= z < 256) zs ->
  Forall (fun c => 0x80 <= byteZ c) (map Zbyte zs).
Proof.
  induction 1 as [|z zs Hz _ IH]; cbn [map]; constructor; [|exact IH].
  rewrite byteZ_Zbyte by lia. lia.
Qed.

(** The bytes [AppendRune] writes for a rune that is not ASCII are 0x80 or
    more, also for the runes it replaces by [RuneError]. *)
Lemma AppendRune_high (r : Z) :
  r < 0 \/ 0x80 <= r -> Forall (fun c => 0x80 <= byteZ c) (utf8.AppendRune r).
Proof.
  intros Hr.
  assert (Herr : Forall (fun c => 0x80 <= byteZ c) (utf8.AppendRune utf8.RuneError)).
  { repeat constructor; vm_compute; intros H; discriminate H. }
  assert (Hcases : r < 0 \/ 0x80 <= r < 0x800 \/ 0x800 <= r < 0xD800 \/
                   0xD800 <= r <= 0xDFFF \/ 0xE000 <= r < 0x10000 \/
                   0x10000 <= r <= 0x10FFFF \/ 0x10FFFF < r) by lia.
  destruct Hcases as [H | [H | [H | [H | [H | [H | H]]]]]].
  - replace (utf8.AppendRune r) with (utf8.AppendRune utf8.RuneError); [exact Herr|].
    unfold utf8.AppendRune. utf8_constants.
    symmetry. repeat head_if; reflexivity.
  - rewrite AppendRune_range2 by lia.
    apply (Forall_high_Zbyte [_; _]). repeat constructor; zlia.
  - rewrite AppendRune_range3 by lia.
    apply (Forall_high_Zbyte [_; _; _]). repeat constructor; zlia.
  - replace (utf8.AppendRune r) with (utf8.AppendRune utf8.RuneError); [exact Herr|].
    unfold utf8.AppendRune. utf8_constants.
    symmetry. repeat head_if; reflexivity.
  - rewrite AppendRune_range3 by lia.
    apply (Forall_high_Zbyte [_; _; _]). repeat constructor; zlia.
  - rewrite AppendRune_range4 by lia.
    apply (Forall_high_Zbyte [_; _; _; _]). repeat constructor; zlia.
  - replace (utf8.AppendRune r) with (utf8.AppendRune utf8.RuneError); [exact Herr|].
    unfold utf8.AppendRune. utf8_constants.
    symmetry. repeat head_if; reflexivity.
Qed.

Lemma AppendRune_range1' (r : Z) :
  0 <= r < 0x80 -> utf8.AppendRune r = [Zbyte r].
Proof.
  intros Hr. unfold utf8.AppendRune. utf8_constants. now repeat head_if.
Qed.

Lemma high_printable (l : gostring) :
  Forall (fun c => 0x80 <= byteZ c) l -> Forall printable l.
Proof.
  intros H. eapply Forall_impl; [exact H|]. unfold printable. intros; simpl in *; lia.
Qed.

Lemma hexDigits_printable (n : nat) (r : Z) : Forall printable (strconv.hexDigits n r).
Proof.
  induction n as [|n IH]; cbn [strconv.hexDigits]; constructor; [|exact IH].
  apply hex_printable.
Qed.

Lemma literal_printable (l : gostring) :
  forallb (fun c => 0x20 <=? byteZ c) l = true -> Forall printable l.
Proof.
  intros H. apply Forall_forall. intros c Hc.
  rewrite forallb_forall in H. apply list_elem_of_In, H in Hc.
  unfold printable. lia.
Qed.

(** A printable rune is printable ASCII or past the C1 controls. *)
Lemma IsPrint_range (tbl : Z -> bool) (r : Z) :
  strconv.IsPrint tbl r = true -> 0x20 <= r <= 0x7E \/ 0xA1 <= r.
Proof.
  unfold strconv.IsPrint.
  destruct (Z.leb_spec r 255); [|lia].
  destruct (Z.leb_spec 161 r); [lia|].
  destruct (Z.leb_spec 32 r), (Z.leb_spec r 126); cbn; try lia;
    intros H; discriminate H.
Qed.

(** What [strconv.Quote] writes for a rune holds no control character. *)
Lemma appendEscapedRune_printable (tbl : Z -> bool) (r : Z) :
  Forall printable (strconv.appendEscapedRune tbl r (byteZ DQ)).
Proof.
  unfold strconv.appendEscapedRune.
  destruct ((r =? byteZ DQ) || (r =? byteZ BS)) eqn:Hq.
  { apply orb_true_iff in Hq as [H | H]; apply Z.eqb_eq in H; subst r;
      now apply literal_printable. }
  destruct (strconv.IsPrint tbl r) eqn:Hp.
  { apply IsPrint_range in Hp as [Hp | Hp].
    - rewrite AppendRune_range1' by lia.
      constructor; [|constructor]. unfold printable.
      rewrite byteZ_Zbyte by lia. lia.
    - apply high_printable, AppendRune_high. lia. }
  repeat match goal with
         | |- context [if ?b then _ else _] => destruct b
         end;
    try (now apply literal_printable);
    apply Forall_app; split;
    try (now apply literal_printable);
    try apply hexDigits_printable;
    repeat constructor; apply hex_printable.
Qed.

Lemma quoteLoop_printable (tbl : Z -> bool) (fuel : nat) (s : gostring) :
  Forall printable (strconv.quoteLoop tbl fuel s (byteZ DQ)).
Proof.
  revert s. induction fuel as [|fuel IH]; intros [|c s];
    cbn [strconv.quoteLoop]; try constructor.
  destruct (if utf8.RuneSelf <=? byteZ c
            then utf8.DecodeRuneInString (c :: s) else (byteZ c, 1%nat))
    as [r width].
  apply Forall_app. split; [|apply IH].
  destruct ((width =? 1)%nat && (r =? utf8.RuneError)).
  - apply Forall_app. split; [now apply literal_printable|].
    repeat constructor; apply hex_printable.
  - apply appendEscapedRune_printable.
Qed.

(** A name as [%q] writes it holds no control character, whatever the name. *)
Lemma Quote_printable (tbl : Z -> bool) (s : gostring) :
  Forall printable (strconv.Quote tbl s).
Proof.
  unfold strconv.Quote. constructor; [unfold printable; vm_compute; discriminate|].
  apply Forall_app. split; [apply quoteLoop_printable|].
  now apply literal_printable.
Qed.

End QuoteOutput.

(** ** More on Init *)

Section InitFurther.

Context {Srv TLSConfig Chan Reader : Type}.
Variable isPrintTable : Z -> bool.

Implicit Types (s : GRPCServer Srv TLSConfig Chan Reader).
Implicit Types (entries pre post : list (gostring * Plugin Srv)).
Implicit Types (raw : Plugin Srv) (ptr : option Srv) (k : gostring).
Implicit Types (p : GRPCPlugin Srv).

(** Init changes the field server at most. *)
Lemma Init_after_set_server s entries :
  after (Init isPrintTable s entries)
  = set_server s (server (after (Init isPrintTable s entries))).
Proof.
  unfold Init. destruct (Server s) as [newServer|] eqn:Hsrv.
  - cbn zeta. destruct (registerPlugins _ _ _) as [[ptr cs] err]. reflexivity.
  - destruct s. reflexivity.
Qed.

(** Init does not read the field server. *)
Lemma Init_set_server s newServer ptr entries :
  Server s = Some newServer ->
  Init isPrintTable (set_server s ptr) entries = Init isPrintTable s entries.
Proof.
  intros Hsrv. unfold Init. cbn [Server TLS set_server]. rewrite Hsrv.
  cbn zeta. destruct (registerPlugins _ _ _) as [[ptr' cs] err]. reflexivity.
Qed.

(** X5: the error of a plugin's own method. When the iteration reaches,
    after entries whose methods, called in turn on the server the factory
    returned, all returned nil, an entry whose method returns the error [e]
    on the server as these plugins left it, Init returns the error whose
    text is [error registring], the name as [%q] writes it, a colon and the
    text of [e]; the server handle is the server as the failing method left
    it, and the method of no later entry has been called. *)
Theorem Init_reports_the_plugin_error s newServer pre ptr k p post ptr' (e : gostring) :
  Server s = Some newServer ->
  attached (newServer (serverOptions (TLS s))) pre ptr ->
  methodRuns p ptr ptr' (Some e) ->
  outcome (Init isPrintTable s (pre ++ (k, ImplementsGRPC p) :: post))
  = Returned (Some (str "error registring " ++ strconv.Quote isPrintTable k
                    ++ str ": " ++ e)) /\
  server (after (Init isPrintTable s (pre ++ (k, ImplementsGRPC p) :: post))) = ptr' /\
  calls (Init isPrintTable s (pre ++ (k, ImplementsGRPC p) :: post))
  = CallServer (serverOptions (TLS s))
    :: map CallGRPCServer (map fst pre) ++ [CallGRPCServer k].
Proof.
  intros Hsrv Hpre Hrun.
  rewrite (Init_unfold _ _ _ _ Hsrv). cbn zeta. cbn [outcome calls after].
  rewrite (registerPlugins_app _ _ _ _ _ Hpre).
  cbn [registerPlugins assertGRPCPlugin].
  rewrite (methodRuns_call _ _ _ _ Hrun), Errorf_registering.
  cbn [fst snd server set_server]. repeat split.
Qed.

(** X6: which error Init returns depends on the iteration order. Every
    entry of the map that does not implement GRPCPlugin is the one reported
    in some order of iteration: the order that yields it first, in which Init
    fails before any plugin is registered. *)
Theorem Init_may_report_any_offender s newServer k raw :
  Server s = Some newServer ->
  Plugins s !! k = Some raw ->
  lacksCapability raw ->
  exists entries,
    rangeOrder (Plugins s) entries /\
    outcome (Init isPrintTable s entries)
    = Returned (Some (strconv.Quote isPrintTable k
                      ++ str " is not a GRPC-compatibile plugin")) /\
    calls (Init isPrintTable s entries) = [CallServer (serverOptions (TLS s))] /\
    server (after (Init isPrintTable s entries)) = newServer (serverOptions (TLS s)).
Proof.
  intros Hsrv Hk Hraw. unfold lacksCapability in Hraw.
  exists ((k, raw) :: map_to_list (delete k (Plugins s))).
  split; [unfold rangeOrder; now apply map_to_list_delete|].
  rewrite (Init_unfold _ _ _ _ Hsrv). cbn zeta. cbn [outcome calls after].
  cbn [registerPlugins]. rewrite Hraw, Errorf_not_compatible.
  cbn [fst snd server set_server]. repeat split.
Qed.

(** X7: a nil result means a complete registration. When Init returns nil,
    the Server function is not nil, every entry of the map implements
    GRPCPlugin, and the method of every entry has been called, on the server
    the factory returned as the entries before left it, and has returned
    nil; the server handle is the server after these calls, and the calls
    are the factory followed by the plugins in the order of the iteration. *)
Theorem Init_success_means_all_registered s entries :
  rangeOrder (Plugins s) entries ->
  outcome (Init isPrintTable s entries) = Returned None ->
  exists newServer,
    Server s = Some newServer /\
    attached (newServer (serverOptions (TLS s))) entries
             (server (after (Init isPrintTable s entries))) /\
    calls (Init isPrintTable s entries)
    = CallServer (serverOptions (TLS s)) :: map CallGRPCServer (map fst entries) /\
    (forall k raw, Plugins s !! k = Some raw ->
       (k, raw) ∈ entries /\
       (exists p, assertGRPCPlugin raw = Some p) /\
       CallGRPCServer k ∈ calls (Init isPrintTable s entries)).
Proof.
  intros Hperm Hnil. destruct (Server s) as [newServer|] eqn:Hsrv.
  2:{ unfold Init in Hnil. rewrite Hsrv in Hnil. discriminate Hnil. }
  exists newServer. split; [reflexivity|].
  rewrite (Init_unfold _ _ _ _ Hsrv) in Hnil |- *.
  cbn zeta in Hnil |- *. cbn [outcome calls after] in Hnil |- *.
  destruct (registerPlugins_cases isPrintTable
              (TLSConfig:=TLSConfig) (newServer (serverOptions (TLS s))) entries)
    as [(ptr' & Heq & Hall)
       | (pre & k & raw & post & ptr & ptr' & msg & _ & _ & Heq & _)];
    rewrite Heq in Hnil |- *; cbn [fst snd server set_server] in Hnil |- *;
    [|discriminate Hnil].
  split; [exact Hall|]. split; [reflexivity|]. intros k raw Hk.
  assert (Hin : (k, raw) ∈ entries).
  { unfold rangeOrder in Hperm. rewrite Hperm. now apply elem_of_map_to_list. }
  split; [exact Hin|]. split.
  - destruct (attached_elem _ _ _ _ _ Hall Hin) as (p & _ & _ & Hp & _). eauto.
  - right. apply list_elem_of_fmap. exists k. split; [reflexivity|].
    apply list_elem_of_fmap. now exists (k, raw).
Qed.

(** X8: Init does not depend on an earlier Init. Called again, it asks the
    factory for a new server and registers the plugins on it: with a factory
    and plugin methods that are functions of their arguments, as they are
    modelled here, the run is the one it would have been on the bootstrap
    before the first call, and the server of the first call is dropped. *)
Theorem Init_after_Init s newServer entries1 entries2 :
  Server s = Some newServer ->
  Init isPrintTable (after (Init isPrintTable s entries1)) entries2
  = Init isPrintTable s entries2.
Proof.
  intros Hsrv. rewrite Init_after_set_server.
  now apply Init_set_server with newServer.
Qed.

(** X9: Config and Init do not interfere. Config returns the same text
    before and after Init, whatever the outcome of Init, and a call of Config
    changes nothing for the Init that follows it. *)
Theorem Config_and_Init_commute s entries :
  outcome (Config (after (Init isPrintTable s entries))) = outcome (Config s) /\
  Init isPrintTable (after (Config s)) entries = Init isPrintTable s entries.
Proof.
  rewrite Init_after_set_server, !Config_unfold. split; reflexivity.
Qed.

(** X10: with [DefaultGRPCServer] as the factory, the server handle is a
    server after Init, whether Init returns an error or not. The factory is
    called first, and the server was made by [grpc.NewServer] from no option
    when TLS is nil and from the one credentials option otherwise: when Init
    returns, the plugins were registered on that server, and with no plugin
    to register the handle is that new server. *)
Theorem Init_with_DefaultGRPCServer (NewServer : list (ServerOption TLSConfig) -> Srv)
    s entries :
  Server s = Some (DefaultGRPCServer NewServer) ->
  exists opts cs,
    opts = match TLS s with
           | None => []
           | Some c => [Creds (NewTLS c)]
           end /\
    calls (Init isPrintTable s entries) = CallServer opts :: cs /\
    (exists srv, server (after (Init isPrintTable s entries)) = Some srv) /\
    (forall err,
       outcome (Init isPrintTable s entries) = Returned err ->
       loopResult isPrintTable (Some (NewServer opts)) entries
                  (server (after (Init isPrintTable s entries))) err) /\
    (entries = [] ->
     server (after (Init isPrintTable s entries)) = Some (NewServer opts)).
Proof.
  intros Hsrv. rewrite (Init_unfold _ _ _ _ Hsrv).
  cbn zeta. cbn [outcome calls after server set_server].
  assert (Hopts : serverOptions (TLS s)
                  = match TLS s with
                    | None => []
                    | Some c => [Creds (NewTLS c)]
                    end) by (unfold serverOptions; now destruct (TLS s)).
  rewrite <- Hopts.
  pose proof (registerPlugins_pointer isPrintTable (TLSConfig:=TLSConfig)
                (DefaultGRPCServer NewServer (serverOptions (TLS s))) entries) as Hptr.
  assert (Hsome : forall ptr' : option Srv,
             (ptr' = None <-> DefaultGRPCServer NewServer (serverOptions (TLS s)) = None) ->
             exists srv, ptr' = Some srv).
  { intros [srv|] Hiff; [eauto|]. destruct Hiff as [Hiff _].
    specialize (Hiff eq_refl). discriminate Hiff. }
  destruct (registerPlugins_cases isPrintTable (TLSConfig:=TLSConfig)
              (DefaultGRPCServer NewServer (serverOptions (TLS s))) entries)
    as [(ptr' & Heq & Hall)
       | (pre & k & raw & post & ptr & ptr' & msg & Hsplit & Hpre & Heq & Hstop)];
    rewrite Heq in Hptr |- *; cbn [fst snd] in Hptr |- *.
  - exists (serverOptions (TLS s)), (map CallGRPCServer (map fst entries)).
    split; [reflexivity|]. split; [reflexivity|]. split; [now apply Hsome|].
    split; [intros err [= <-]; exact Hall|].
    intros ->. now inversion Hall.
  - exists (serverOptions (TLS s)),
           (map CallGRPCServer (map fst pre) ++ attempted k raw).
    split; [reflexivity|]. split; [reflexivity|]. split; [now apply Hsome|].
    split; [intros err [= <-]; exists pre, k, raw, post, ptr; auto|].
    intros ->. now destruct pre.
Qed.

(** X11: the anatomy of an error of Init. When Init returns an error, the
    iteration has registered the entries before some entry [(k, raw)] and
    stopped there. Either the entry does not implement GRPCPlugin, the
    server is as the earlier entries left it and the text is the name as
    [%q] writes it followed by [ is not a GRPC-compatibile plugin]; or the
    entry's method, called on the server as the earlier entries left it, has
    returned an error [e], and the text is [error registring], the quoted
    name, a colon and the text of [e]. Whatever bytes the name is made of,
    the text up to the plugin's error has no byte below 0x20, hence no line
    break. *)
Theorem Init_error_text s entries (msg : gostring) :
  outcome (Init isPrintTable s entries) = Returned (Some msg) ->
  exists newServer pre k raw post ptr,
    Server s = Some newServer /\
    entries = pre ++ (k, raw) :: post /\
    attached (newServer (serverOptions (TLS s))) pre ptr /\
    ((assertGRPCPlugin raw = None /\
      server (after (Init isPrintTable s entries)) = ptr /\
      msg = strconv.Quote isPrintTable k ++ str " is not a GRPC-compatibile plugin" /\
      Forall printable msg)
     \/
     (exists p e,
        assertGRPCPlugin raw = Some p /\
        methodRuns p ptr (server (after (Init isPrintTable s entries))) (Some e) /\
        msg = (str "error registring " ++ strconv.Quote isPrintTable k ++ str ": ")
              ++ e /\
        Forall printable (str "error registring "
                          ++ strconv.Quote isPrintTable k ++ str ": "))).
Proof.
  intros Hmsg. destruct (Server s) as [newServer|] eqn:Hsrv.
  2:{ unfold Init in Hmsg. rewrite Hsrv in Hmsg. discriminate Hmsg. }
  rewrite (Init_unfold _ _ _ _ Hsrv) in Hmsg |- *.
  cbn zeta in Hmsg |- *. cbn [outcome after] in Hmsg |- *.
  destruct (registerPlugins_cases isPrintTable
              (TLSConfig:=TLSConfig) (newServer (serverOptions (TLS s))) entries)
    as [(ptr' & Heq & _)
       | (pre & k & raw & post & ptr & ptr' & msg' & Hsplit & Hpre & Heq & Hstop)];
    rewrite Heq in Hmsg |- *; cbn [fst snd server set_server] in Hmsg |- *;
    [discriminate Hmsg|].
  injection Hmsg as ->. exists newServer, pre, k, raw, post, ptr.
  split; [reflexivity|]. split; [exact Hsplit|]. split; [exact Hpre|].
  destruct Hstop as [(Hraw & -> & ->) | (p & e & Hraw & Hrun & ->)].
  - left. split; [exact Hraw|]. split; [reflexivity|]. split; [reflexivity|].
    apply Forall_app. split; [apply Quote_printable | now apply literal_printable].
  - right. exists p, e. split; [exact Hraw|]. split; [exact Hrun|].
    split; [now rewrite <- !app_assoc|].
    apply Forall_app. split; [now apply literal_printable|].
    apply Forall_app. split; [apply Quote_printable | now apply literal_printable].
Qed.

End InitFurther.

(** ** More on the text Config returns *)

Section EncoderOutput.
Local Open Scope Z_scope.

Lemma hex_digit (z : Z) :
  0x30 <= byteZ (hex z) <= 0x39 \/ 0x61 <= byteZ (hex z) <= 0x66.
Proof.
  unfold hex. set (n := Z.to_nat z). clearbody n.
  do 16 (destruct n as [|n]; [vm_compute; intuition discriminate|]).
  destruct n; vm_compute; intuition discriminate.
Qed.

Lemma hex_htmlSafe (z : Z) : htmlSafeByte (hex z).
Proof. unfold htmlSafeByte. pose proof (hex_digit z). lia. Qed.

Lemma literal_htmlSafe (l : gostring) :
  forallb (fun c => (0x20 <=? byteZ c) && negb (byteZ c =? 0x26)
                    && negb (byteZ c =? 0x3C) && negb (byteZ c =? 0x3E)) l = true ->
  Forall htmlSafeByte l.
Proof.
  intros H. apply Forall_forall. intros c Hc.
  rewrite forallb_forall in H. apply list_elem_of_In, H in Hc.
  unfold htmlSafeByte. lia.
Qed.

Lemma escapeByte_htmlSafe (c : ascii) :
  Forall htmlSafeByte (json.escapeByte (byteZ c)).
Proof.
  unfold json.escapeByte.
  destruct ((byteZ c =? 92) || (byteZ c =? 34)) eqn:Hq.
  { rewrite Zbyte_byteZ. change [BS; c] with ([BS] ++ [c]).
    apply Forall_app. split; [now apply literal_htmlSafe|].
    constructor; [|constructor]. unfold htmlSafeByte. lia. }
  repeat match goal with
         | |- context [if ?b then _ else _] => destruct b
         end;
    try (now apply literal_htmlSafe).
  apply Forall_app. split; [now apply literal_htmlSafe|].
  repeat constructor; apply hex_htmlSafe.
Qed.

(** With HTML escaping on, as [json.NewEncoder] has it, a string literal of
    the encoder holds no control character, no ampersand and no angle
    bracket. *)
Lemma appendStringLoop_htmlSafe (fuel : nat) (src : gostring) :
  Forall htmlSafeByte (json.appendStringLoop fuel src true).
Proof.
  revert src. induction fuel as [|fuel IH]; intros [|c0 r0];
    cbn [json.appendStringLoop]; try constructor.
  destruct (byteZ c0 <? utf8.RuneSelf) eqn:Hascii.
  - apply Forall_app. split; [|apply IH].
    cbn [negb andb]. rewrite orb_false_r.
    destruct (json.htmlSafeSet (byteZ c0)) eqn:Hsafe; [|apply escapeByte_htmlSafe].
    constructor; [|constructor].
    unfold json.htmlSafeSet, json.safeSet in Hsafe. unfold htmlSafeByte. lia.
  - destruct (utf8.DecodeRuneInString (c0 :: r0)) as [r size] eqn:Hdec.
    assert (Hhigh : 0x80 <= byteZ c0) by (unfold utf8.RuneSelf in Hascii; lia).
    destruct ((r =? utf8.RuneError) && (size =? 1)%nat) eqn:Herr.
    { apply Forall_app. split; [now apply literal_htmlSafe | apply IH]. }
    destruct ((r =? 8232) || (r =? 8233)) eqn:Hsep.
    { apply Forall_app. split; [now apply literal_htmlSafe|].
      apply Forall_app. split; [|apply IH].
      constructor; [apply hex_htmlSafe | constructor]. }
    apply Forall_app. split; [|apply IH].
    destruct (Decode_multibyte _ _ _ _ Hhigh Hdec) as [Hbad | Hgood].
    { injection Hbad as -> ->. discriminate Herr. }
    destruct (decodesTo_split _ _ _ Hgood) as [-> _].
    destruct Hgood as (_ & _ & _ & _ & Hall & _).
    eapply Forall_impl; [exact Hall|].
    unfold htmlSafeByte. intros; simpl in *; lia.
Qed.

Lemma appendString_htmlSafe (src : gostring) :
  Forall htmlSafeByte (json.appendString src true).
Proof.
  unfold json.appendString.
  change (DQ :: ?x) with ([DQ] ++ x).
  apply Forall_app. split; [now apply literal_htmlSafe|].
  apply Forall_app. split; [apply appendStringLoop_htmlSafe|].
  now apply literal_htmlSafe.
Qed.

(** The bytes the encoder copies as they are. *)
Lemma appendStringLoop_copied (fuel : nat) (src : gostring) :
  (length src <= fuel)%nat -> forallb copiedByte src = true ->
  json.appendStringLoop fuel src true = src.
Proof.
  revert src. induction fuel as [|fuel IH]; intros [|c0 r0] Hlen Hall;
    cbn [json.appendStringLoop]; try reflexivity; [simpl in Hlen; lia|].
  cbn [forallb] in Hall. apply andb_true_iff in Hall as [Hc Hrest].
  unfold copiedByte in Hc. apply andb_true_iff in Hc as [Hascii Hsafe].
  unfold utf8.RuneSelf. rewrite Hascii, Hsafe. cbn [orb app].
  f_equal. apply IH; [simpl in Hlen; lia | exact Hrest].
Qed.

(** The size of a rune is at least one byte, and at most the bytes left. *)
Lemma Decode_size (c0 : ascii) (r0 : gostring) (r : Z) (size : nat) :
  utf8.DecodeRuneInString (c0 :: r0) = (r, size) ->
  (1 <= size <= length (c0 :: r0))%nat /\ (size <= 4)%nat.
Proof.
  intros Hdec. pose proof (byteZ_range c0) as Hr.
  destruct (Z.lt_ge_cases (byteZ c0) 0x80) as [Hlow | Hhigh].
  - rewrite Decode_ascii in Hdec by assumption. injection Hdec as _ <-.
    cbn [length]. lia.
  - destruct (Decode_multibyte _ _ _ _ Hhigh Hdec) as [Hbad | Hgood].
    + injection Hbad as _ ->. cbn [length]. lia.
    + pose proof Hgood as (t & Heq & Hlen & Hsz & _ & _ & Hd).
      rewrite Heq, length_app. split; [lia|].
      assert (Hcases : 0x80 <= r < 0x800 \/ 0x800 <= r < 0x10000 \/ 0x10000 <= r
                       \/ r < 0x80) by lia.
      destruct Hgood as (_ & _ & _ & _ & _ & Hr80 & _).
      rewrite <- Hlen.
      assert (Hle : forall x, (length (utf8.AppendRune x) <= 4)%nat).
      { intros x. unfold utf8.AppendRune.
        repeat match goal with
               | |- context [if ?b then _ else _] => destruct b
               end; cbn [length]; lia. }
      apply Hle.
Qed.

Lemma escapeByte_length (b : Z) : (2 <= length (json.escapeByte b) <= 6)%nat.
Proof.
  unfold json.escapeByte.
  repeat match goal with
         | |- context [if ?b then _ else _] => destruct b
         end; cbn [length str list_ascii_of_string app]; lia.
Qed.

(** A string literal of the encoder is at least as long as the string and
    at most six times as long, the two quotes apart. *)
Lemma appendStringLoop_length (escapeHTML : bool) (fuel : nat) (src : gostring) :
  (length src <= fuel)%nat ->
  (length src <= length (json.appendStringLoop fuel src escapeHTML) <= 6 * length src)%nat.
Proof.
  revert src. induction fuel as [|fuel IH]; intros [|c0 r0] Hlen;
    cbn [json.appendStringLoop]; cbn [length] in *; try lia.
  destruct (byteZ c0 <? utf8.RuneSelf) eqn:Hascii.
  - rewrite length_app. specialize (IH r0 ltac:(lia)).
    destruct (json.htmlSafeSet (byteZ c0) || negb escapeHTML && json.safeSet (byteZ c0)).
    + cbn [length]. lia.
    + pose proof (escapeByte_length (byteZ c0)). lia.
  - destruct (utf8.DecodeRuneInString (c0 :: r0)) as [r size] eqn:Hdec.
    destruct (Decode_size _ _ _ _ Hdec) as [[Hpos Hmax] H4]. cbn [length] in Hmax.
    assert (Hskip : length (skipn size (c0 :: r0)) = (S (length r0) - size)%nat).
    { rewrite length_skipn. reflexivity. }
    specialize (IH (skipn size (c0 :: r0)) ltac:(lia)). rewrite Hskip in IH.
    destruct ((r =? utf8.RuneError) && (size =? 1)%nat) eqn:Herr.
    { rewrite length_app. cbn [length str list_ascii_of_string]. lia. }
    destruct ((r =? 8232) || (r =? 8233)).
    { rewrite !length_app. cbn [length str list_ascii_of_string]. lia. }
    rewrite length_app, length_firstn. cbn [length]. lia.
Qed.

End EncoderOutput.

Section ConfigFurther.

Context {Srv TLSConfig Chan Reader : Type}.
Implicit Types (s : GRPCServer Srv TLSConfig Chan Reader).

(** X12: addresses made of ASCII bytes that need no escape (printable, other
    than the double quote, the backslash, the ampersand and the angle
    brackets) appear in the text as they are, between double quotes. *)
Theorem Config_copies_plain_addresses s :
  forallb copiedByte (StdoutAddr (config s)) = true ->
  forallb copiedByte (StderrAddr (config s)) = true ->
  outcome (Config s)
  = Returned (str "{" ++ [DQ] ++ str "stdout_addr" ++ [DQ] ++ str ":"
              ++ [DQ] ++ StdoutAddr (config s) ++ [DQ]
              ++ str "," ++ [DQ] ++ str "stderr_addr" ++ [DQ] ++ str ":"
              ++ [DQ] ++ StderrAddr (config s) ++ [DQ]
              ++ str "}" ++ [LF]).
Proof.
  intros Hout Herr. rewrite Config_unfold. cbn [outcome]. f_equal.
  unfold configLine, json.appendString.
  rewrite !appendStringLoop_copied by (assumption || lia).
  repeat first [rewrite <- app_assoc | progress cbn [app str list_ascii_of_string]].
  reflexivity.
Qed.

(** X13: whatever the addresses hold, the text has no ampersand and no angle
    bracket: the encoder of [json.NewEncoder] escapes them. *)
Theorem Config_is_html_safe s :
  exists line,
    outcome (Config s) = Returned (line ++ [LF]) /\
    Forall htmlSafeByte line.
Proof.
  exists (configLine (config s)). rewrite Config_unfold.
  split; [reflexivity|]. unfold configLine.
  repeat (apply Forall_app; split);
    try apply appendString_htmlSafe; now apply literal_htmlSafe.
Qed.

(** X14: the length of the text. It is 36 bytes (the braces, the keys, the
    quotes, the comma and the line feed) and, for each address, at least the
    length of the address and at most six times that length. *)
Theorem Config_length s :
  exists out,
    outcome (Config s) = Returned out /\
    (36 + length (StdoutAddr (config s)) + length (StderrAddr (config s))
     <= length out
     <= 36 + 6 * length (StdoutAddr (config s)) + 6 * length (StderrAddr (config s)))%nat.
Proof.
  eexists. rewrite Config_unfold. split; [reflexivity|].
  unfold configLine, json.appendString.
  pose proof (appendStringLoop_length true _ (StdoutAddr (config s)) (Nat.le_refl _)).
  pose proof (appendStringLoop_length true _ (StderrAddr (config s)) (Nat.le_refl _)).
  rewrite !length_app. cbn [length str list_ascii_of_string app].
  rewrite !length_app. cbn [length]. lia.
Qed.

End ConfigFurther.

(** ** The text is valid UTF-8, and what a reader gets back from it *)

Section Utf8Validity.
Local Open Scope Z_scope.

Lemma validFrom_mono (n : nat) :
  forall (m : nat) (s : gostring),
    utf8.validFrom n s = true -> (n <= m)%nat -> utf8.validFrom m s = true.
Proof.
  induction n as [|n IH]; intros m s Hv Hle.
  - destruct s; [destruct m; reflexivity | discriminate Hv].
  - destruct s as [|c0 r0]; [destruct m; reflexivity|].
    destruct m as [|m]; [lia|]. cbn [utf8.validFrom] in Hv |- *.
    destruct (utf8.DecodeRuneInString (c0 :: r0)) as [r size].
    destruct ((r =? utf8.RuneError) && (size =? 1)%nat); [discriminate Hv|].
    apply IH; [exact Hv | lia].
Qed.

(** A scan that succeeds with some fuel succeeds with the length as fuel. *)
Lemma validFrom_ValidString (n : nat) :
  forall s : gostring, utf8.validFrom n s = true -> utf8.ValidString s = true.
Proof.
  unfold utf8.ValidString.
  induction n as [|n IH]; intros [|c0 r0] Hv; try reflexivity; [discriminate Hv|].
  cbn [utf8.validFrom length] in Hv |- *.
  destruct (utf8.DecodeRuneInString (c0 :: r0)) as [r size] eqn:Hdec.
  destruct ((r =? utf8.RuneError) && (size =? 1)%nat); [discriminate Hv|].
  destruct (Decode_size _ _ _ _ Hdec) as [[Hpos Hmax] _].
  apply (validFrom_mono (length (skipn size (c0 :: r0)))); [now apply IH|].
  rewrite length_skipn. cbn [length]. lia.
Qed.

Lemma scans_nil : scans [].
Proof. now exists O. Qed.

Lemma scans_ValidString (s : gostring) : scans s -> utf8.ValidString s = true.
Proof. intros [n Hn]. now apply validFrom_ValidString with n. Qed.

Lemma scans_ascii (a s : gostring) :
  Forall (fun c => byteZ c < 0x80) a -> scans s -> scans (a ++ s).
Proof.
  intros Ha Hs. induction Ha as [|c a Hc _ IH]; [exact Hs|].
  destruct IH as [n Hn]. exists (S n). cbn [app utf8.validFrom].
  rewrite Decode_ascii by exact Hc.
  replace (byteZ c =? utf8.RuneError) with false by (unfold utf8.RuneError; lia).
  exact Hn.
Qed.

Lemma scans_rune (x s : gostring) (r : Z) (size : nat) :
  decodesTo x r size -> scans s -> scans (utf8.AppendRune r ++ s).
Proof.
  intros (t & _ & Hlen & Hsz & _ & _ & Hdec) [n Hn]. exists (S n).
  specialize (Hdec s).
  destruct (utf8.AppendRune r) as [|c0 rest] eqn:Henc; [simpl in Hlen; lia|].
  cbn [app] in Hdec. cbn [app utf8.validFrom]. rewrite Hdec.
  replace ((size =? 1)%nat) with false by (symmetry; apply Nat.eqb_neq; lia).
  rewrite andb_false_r, <- Hlen.
  change (c0 :: rest ++ s) with ((c0 :: rest) ++ s).
  now rewrite skipn_app, Nat.sub_diag, skipn_all, skipn_O.
Qed.

Lemma literal_ascii (l : gostring) :
  forallb (fun c => byteZ c <? 0x80) l = true -> Forall (fun c => byteZ c < 0x80) l.
Proof.
  intros H. apply Forall_forall. intros c Hc.
  rewrite forallb_forall in H. apply list_elem_of_In, H in Hc. lia.
Qed.

Lemma escapeByte_ascii (c : ascii) :
  byteZ c < 0x80 -> Forall (fun d => byteZ d < 0x80) (json.escapeByte (byteZ c)).
Proof.
  intros Hc. unfold json.escapeByte.
  destruct ((byteZ c =? 92) || (byteZ c =? 34)) eqn:Hq.
  { rewrite Zbyte_byteZ. change [BS; c] with ([BS] ++ [c]).
    apply Forall_app. split; [now apply literal_ascii|].
    constructor; [exact Hc | constructor]. }
  repeat match goal with
         | |- context [if ?b then _ else _] => destruct b
         end;
    try (now apply literal_ascii).
  apply Forall_app. split; [now apply literal_ascii|].
  repeat constructor; apply hex_printable.
Qed.

(** What the encoder writes for a string is valid UTF-8, whatever the string. *)
Lemma appendStringLoop_scans (escapeHTML : bool) (fuel : nat) :
  forall src rest : gostring,
    scans rest -> scans (json.appendStringLoop fuel src escapeHTML ++ rest).
Proof.
  induction fuel as [|fuel IH]; intros [|c0 r0] rest Hrest;
    cbn [json.appendStringLoop app]; try exact Hrest.
  destruct (byteZ c0 <? utf8.RuneSelf) eqn:Hascii.
  - rewrite <- app_assoc. apply scans_ascii; [|now apply IH].
    assert (Hlow : byteZ c0 < 0x80) by (unfold utf8.RuneSelf in Hascii; lia).
    destruct (json.htmlSafeSet (byteZ c0) || negb escapeHTML && json.safeSet (byteZ c0)).
    + constructor; [exact Hlow | constructor].
    + now apply escapeByte_ascii.
  - destruct (utf8.DecodeRuneInString (c0 :: r0)) as [r size] eqn:Hdec.
    assert (Hhigh : 0x80 <= byteZ c0) by (unfold utf8.RuneSelf in Hascii; lia).
    destruct ((r =? utf8.RuneError) && (size =? 1)%nat) eqn:Herr.
    { rewrite <- app_assoc. apply scans_ascii; [now apply literal_ascii | now apply IH]. }
    destruct ((r =? 8232) || (r =? 8233)) eqn:Hsep.
    { rewrite <- !app_assoc. apply scans_ascii; [now apply literal_ascii|].
      apply (scans_ascii [hex (Z.land r 15)]
               (json.appendStringLoop fuel (skipn size (c0 :: r0)) escapeHTML ++ rest));
        [|now apply IH].
      constructor; [apply hex_printable | constructor]. }
    rewrite <- app_assoc.
    destruct (Decode_multibyte _ _ _ _ Hhigh Hdec) as [Hbad | Hgood].
    { injection Hbad as -> ->. discriminate Herr. }
    destruct (decodesTo_split _ _ _ Hgood) as [-> _].
    apply (scans_rune _ _ _ _ Hgood). now apply IH.
Qed.

Lemma appendString_scans (escapeHTML : bool) (src rest : gostring) :
  scans rest -> scans (json.appendString src escapeHTML ++ rest).
Proof.
  intros Hrest. unfold json.appendString.
  change (DQ :: ?x ++ [DQ]) with ([DQ] ++ x ++ [DQ]).
  rewrite <- !app_assoc.
  apply (scans_ascii [DQ]); [now apply literal_ascii|].
  apply appendStringLoop_scans.
  apply (scans_ascii [DQ]); [now apply literal_ascii | exact Hrest].
Qed.

Lemma configLine_scans (c : GRPCServerConfig) : scans (configLine c ++ [LF]).
Proof.
  unfold configLine. rewrite <- !app_assoc.
  apply (scans_ascii (str "{")); [now apply literal_ascii|].
  apply (scans_ascii [DQ]); [now apply literal_ascii|].
  apply (scans_ascii (str "stdout_addr")); [now apply literal_ascii|].
  apply (scans_ascii [DQ]); [now apply literal_ascii|].
  apply (scans_ascii (str ":")); [now apply literal_ascii|].
  apply appendString_scans.
  apply (scans_ascii (str ",")); [now apply literal_ascii|].
  apply (scans_ascii [DQ]); [now apply literal_ascii|].
  apply (scans_ascii (str "stderr_addr")); [now apply literal_ascii|].
  apply (scans_ascii [DQ]); [now apply literal_ascii|].
  apply (scans_ascii (str ":")); [now apply literal_ascii|].
  apply appendString_scans.
  apply (scans_ascii (str "}")); [now apply literal_ascii|].
  apply (scans_ascii [LF] []); [now apply literal_ascii|].
  apply scans_nil.
Qed.

End Utf8Validity.

(** ** What a reader gets back from the text, for every configuration *)

Section JsonReadBack.
Local Open Scope Z_scope.

(** One step of the decoder on the escape the encoder writes for an invalid
    byte. *)
Lemma unquote_replacement_step (m : nat) (tail : gostring) :
  json.unquoteLoop (S m) (str "\ufffd" ++ tail)
  = json.consume (utf8.AppendRune utf8.RuneError) (json.unquoteLoop m tail).
Proof. reflexivity. Qed.

(** The decoder reads back what [appendString] writes for any string, up to
    the closing quote: the string with its invalid bytes replaced. *)
Lemma unquote_appendStringLoop_coerced (fuel : nat) :
  forall (src : gostring) (m : nat) (rest : gostring),
    (length src <= fuel)%nat ->
    (length (json.appendStringLoop fuel src true) < m)%nat ->
    json.unquoteLoop m (json.appendStringLoop fuel src true ++ DQ :: rest)
    = Some (coerceLoop fuel src, rest).
Proof.
  induction fuel as [|fuel IH]; intros src m rest Hlen Hm.
  - destruct src; [|simpl in Hlen; lia].
    destruct m; [simpl in Hm; lia|]. reflexivity.
  - destruct src as [|c0 r0].
    { destruct m; [simpl in Hm; lia|]. reflexivity. }
    cbn [coerceLoop]. cbn [json.appendStringLoop] in Hm |- *.
    cbn [negb andb orb] in *. rewrite orb_false_r in *.
    destruct m as [|m]; [lia|].
    destruct (byteZ c0 <? utf8.RuneSelf) eqn:Hascii.
    + (* an ASCII byte *)
      rewrite Decode_ascii by (unfold utf8.RuneSelf in Hascii; lia).
      replace (byteZ c0 =? utf8.RuneError) with false
        by (unfold utf8.RuneSelf, utf8.RuneError in *; lia).
      cbn [andb firstn skipn app].
      rewrite length_app in Hm. rewrite <- app_assoc.
      rewrite unquote_ascii_step by exact Hascii.
      rewrite IH, consume_some; [reflexivity | simpl in Hlen; lia |].
      assert (1 <= length (if json.htmlSafeSet (byteZ c0) then [c0]
                           else json.escapeByte (byteZ c0)))%nat; [|lia].
      destruct (json.htmlSafeSet (byteZ c0)); [simpl; lia|].
      pose proof (escapeByte_length (byteZ c0)). lia.
    + (* a byte of 0x80 or more *)
      destruct (utf8.DecodeRuneInString (c0 :: r0)) as [r size] eqn:Hdec.
      assert (Hhigh : 0x80 <= byteZ c0) by (unfold utf8.RuneSelf in Hascii; lia).
      destruct ((r =? utf8.RuneError) && (size =? 1)%nat) eqn:Herr.
      { (* no encoding starts here *)
        rewrite length_app in Hm. rewrite <- app_assoc.
        rewrite unquote_replacement_step.
        apply andb_true_iff in Herr as [_ Hone]. apply Nat.eqb_eq in Hone. subst size.
        change (skipn 1 (c0 :: r0)) with r0 in *.
        rewrite IH, consume_some; [reflexivity | simpl in Hlen; lia |].
        cbn [length str list_ascii_of_string] in Hm. lia. }
      destruct (Decode_multibyte _ _ _ _ Hhigh Hdec) as [Hbad | Hgood].
      { injection Hbad as -> ->. discriminate Herr. }
      destruct (decodesTo_split _ _ _ Hgood) as [Hfirst Hsplit].
      pose proof Hgood as (t & _ & Hsize & Hsz & _).
      assert (Hskip : (length (skipn size (c0 :: r0)) <= fuel)%nat).
      { rewrite length_skipn. simpl in Hlen |- *. lia. }
      destruct ((r =? 8232) || (r =? 8233)) eqn:Hsep.
      * rewrite !length_app in Hm. rewrite <- !app_assoc.
        rewrite unquote_separator_step by lia.
        rewrite IH, consume_some; [ | assumption | simpl in Hm; lia].
        now rewrite Hfirst.
      * rewrite length_app in Hm. rewrite <- app_assoc, Hfirst.
        rewrite (unquote_rune_step _ _ _ _ _ Hgood).
        rewrite IH, consume_some; [reflexivity | assumption | ].
        rewrite Hfirst, Hsize in Hm. lia.
Qed.

Lemma parseString_appendString_coerced (src rest : gostring) :
  json.parseString (json.appendString src true ++ rest) = Some (coerceUTF8 src, rest).
Proof.
  unfold json.appendString, json.parseString, coerceUTF8.
  cbn [app]. change (Ascii.eqb DQ DQ) with true. cbv iota.
  rewrite <- app_assoc. cbn [app].
  apply unquote_appendStringLoop_coerced; [lia|].
  rewrite length_app. simpl. lia.
Qed.

Lemma parseMembers_two_coerced (fuel : nat) (k1 v1 k2 v2 tail : gostring) :
  (2 <= fuel)%nat ->
  json.parseMembers fuel
    (json.appendString k1 true ++ ":"%char :: json.appendString v1 true
     ++ ","%char :: json.appendString k2 true ++ ":"%char :: json.appendString v2 true
     ++ "}"%char :: tail)
  = Some ([(coerceUTF8 k1, coerceUTF8 v1); (coerceUTF8 k2, coerceUTF8 v2)], tail).
Proof.
  intros Hfuel.
  destruct fuel as [|[|fuel]]; [lia | lia |].
  cbn [json.parseMembers].
  rewrite (parseString_appendString_coerced k1).
  rewrite skipSpace_nonspace by reflexivity.
  change (Ascii.eqb ":" ":") with true. cbv iota.
  rewrite skipSpace_appendString, (parseString_appendString_coerced v1).
  rewrite skipSpace_nonspace by reflexivity.
  change (Ascii.eqb "," ",") with true. cbv iota.
  rewrite skipSpace_appendString, (parseString_appendString_coerced k2).
  rewrite skipSpace_nonspace by reflexivity.
  change (Ascii.eqb ":" ":") with true. cbv iota.
  rewrite skipSpace_appendString, (parseString_appendString_coerced v2).
  rewrite skipSpace_nonspace by reflexivity.
  reflexivity.
Qed.

Lemma parseObject_two_coerced (k1 v1 k2 v2 tail : gostring) :
  json.parseObject
    ("{"%char :: json.appendString k1 true ++ ":"%char :: json.appendString v1 true
     ++ ","%char :: json.appendString k2 true ++ ":"%char :: json.appendString v2 true
     ++ "}"%char :: tail)
  = Some ([(coerceUTF8 k1, coerceUTF8 v1); (coerceUTF8 k2, coerceUTF8 v2)], tail).
Proof.
  unfold json.parseObject.
  rewrite skipSpace_nonspace by reflexivity.
  change (Ascii.eqb "{" "{") with true. cbv iota.
  rewrite skipSpace_appendString.
  remember (json.appendString k1 true ++ ":"%char :: json.appendString v1 true
            ++ ","%char :: json.appendString k2 true ++ ":"%char
            :: json.appendString v2 true ++ "}"%char :: tail) as ms eqn:Hms.
  assert (Hcons : ms = DQ :: tl ms) by (subst ms; reflexivity).
  rewrite Hcons. change (Ascii.eqb DQ "}") with false. cbv iota.
  rewrite <- Hcons. subst ms.
  apply parseMembers_two_coerced.
  unfold json.appendString. cbn [app length].
  rewrite !length_app. cbn [length]. lia.
Qed.

Lemma decodeConfig_configLine_coerced (c : GRPCServerConfig) :
  decodeConfig (configLine c ++ [LF])
  = Some {| StdoutAddr := coerceUTF8 (StdoutAddr c);
            StderrAddr := coerceUTF8 (StderrAddr c) |}.
Proof.
  unfold decodeConfig, json.UnmarshalObject.
  assert (Hline :
    configLine c ++ [LF]
    = "{"%char :: json.appendString (str "stdout_addr") true
      ++ ":"%char :: json.appendString (StdoutAddr c) true
      ++ ","%char :: json.appendString (str "stderr_addr") true
      ++ ":"%char :: json.appendString (StderrAddr c) true
      ++ "}"%char :: [LF]).
  { unfold configLine.
    change (json.appendString (str "stdout_addr") true)
      with ([DQ] ++ str "stdout_addr" ++ [DQ]).
    change (json.appendString (str "stderr_addr") true)
      with ([DQ] ++ str "stderr_addr" ++ [DQ]).
    rewrite <- !app_assoc. reflexivity. }
  rewrite Hline, parseObject_two_coerced.
  change (coerceUTF8 (str "stdout_addr")) with (str "stdout_addr").
  change (coerceUTF8 (str "stderr_addr")) with (str "stderr_addr").
  reflexivity.
Qed.

(** Replacing the invalid bytes of a string changes nothing exactly when the
    string is valid UTF-8. *)
Lemma coerceLoop_valid (fuel : nat) :
  forall s : gostring, utf8.validFrom fuel s = true -> coerceLoop fuel s = s.
Proof.
  induction fuel as [|fuel IH]; intros [|c0 r0] Hv; try reflexivity;
    [discriminate Hv|].
  cbn [utf8.validFrom coerceLoop] in Hv |- *.
  destruct (utf8.DecodeRuneInString (c0 :: r0)) as [r size].
  destruct ((r =? utf8.RuneError) && (size =? 1)%nat); [discriminate Hv|].
  rewrite (IH _ Hv). apply firstn_skipn.
Qed.

Lemma Decode_replacement (t : gostring) :
  utf8.DecodeRuneInString (utf8.AppendRune utf8.RuneError ++ t) = (utf8.RuneError, 3%nat).
Proof. reflexivity. Qed.

Lemma coerceLoop_fixed (fuel : nat) :
  forall s : gostring,
    (length s <= fuel)%nat -> coerceLoop fuel s = s -> utf8.validFrom fuel s = true.
Proof.
  induction fuel as [|fuel IH]; intros [|c0 r0] Hlen Heq; try reflexivity;
    [simpl in Hlen; lia|].
  cbn [utf8.validFrom coerceLoop] in Heq |- *.
  destruct (utf8.DecodeRuneInString (c0 :: r0)) as [r size] eqn:Hdec.
  destruct ((r =? utf8.RuneError) && (size =? 1)%nat) eqn:Herr.
  - exfalso. rewrite <- Heq, Decode_replacement in Hdec.
    injection Hdec as <- <-. discriminate Herr.
  - destruct (Decode_size _ _ _ _ Hdec) as [[Hpos Hmax] _].
    apply IH.
    + rewrite length_skipn. simpl in Hlen |- *. lia.
    + rewrite <- (firstn_skipn size (c0 :: r0)) in Heq at 3.
      now apply app_inv_head in Heq.
Qed.

Lemma coerceUTF8_fixed (s : gostring) :
  coerceUTF8 s = s <-> utf8.ValidString s = true.
Proof.
  unfold coerceUTF8, utf8.ValidString. split.
  - now apply coerceLoop_fixed.
  - apply coerceLoop_valid.
Qed.

(** What [coerceUTF8] returns is valid UTF-8. *)
Lemma coerceLoop_scans (fuel : nat) : forall s : gostring, scans (coerceLoop fuel s).
Proof.
  induction fuel as [|fuel IH]; intros [|c0 r0]; cbn [coerceLoop]; try apply scans_nil.
  destruct (utf8.DecodeRuneInString (c0 :: r0)) as [r size] eqn:Hdec.
  destruct ((r =? utf8.RuneError) && (size =? 1)%nat) eqn:Herr.
  - destruct (IH (skipn 1 (c0 :: r0))) as [n Hn]. exists (S n).
    change (utf8.AppendRune utf8.RuneError ++ ?t)
      with ("239"%char :: ("191"%char :: "189"%char :: t)) at 1.
    cbn [utf8.validFrom].
    change ("239"%char :: "191"%char :: "189"%char :: ?t)
      with (utf8.AppendRune utf8.RuneError ++ t).
    rewrite Decode_replacement. exact Hn.
  - pose proof (byteZ_range c0) as Hr.
    destruct (Z.ltb_spec (byteZ c0) 0x80) as [Hlow | Hhigh].
    + rewrite Decode_ascii in Hdec by exact Hlow. injection Hdec as <- <-.
      change (firstn 1 (c0 :: r0) ++ ?t) with ([c0] ++ t).
      apply scans_ascii; [constructor; [exact Hlow | constructor] | apply IH].
    + destruct (Decode_multibyte _ _ _ _ Hhigh Hdec) as [Hbad | Hgood].
      { injection Hbad as -> ->. discriminate Herr. }
      destruct (decodesTo_split _ _ _ Hgood) as [Hfirst _].
      rewrite Hfirst. apply (scans_rune _ _ _ _ Hgood). apply IH.
Qed.

End JsonReadBack.

Section ConfigReadBack.

Context {Srv TLSConfig Chan Reader : Type}.
Implicit Types (s : GRPCServer Srv TLSConfig Chan Reader).

(** X15: the text Config returns is valid UTF-8, whatever bytes the
    addresses hold. *)
Theorem Config_is_valid_utf8 s :
  exists out, outcome (Config s) = Returned out /\ utf8.ValidString out = true.
Proof.
  eexists. rewrite Config_unfold. split; [reflexivity|].
  apply scans_ValidString, configLine_scans.
Qed.

(** X16: what a reader gets back, for every configuration. The decoder
    accepts the text Config returns and reads the two addresses with every
    byte at which no valid UTF-8 sequence starts replaced by U+FFFD; the
    addresses it reads are valid UTF-8. *)
Theorem Config_read_back s :
  exists payload,
    outcome (Config s) = Returned payload /\
    decodeConfig payload
    = Some {| StdoutAddr := coerceUTF8 (StdoutAddr (config s));
              StderrAddr := coerceUTF8 (StderrAddr (config s)) |} /\
    utf8.ValidString (coerceUTF8 (StdoutAddr (config s))) = true /\
    utf8.ValidString (coerceUTF8 (StderrAddr (config s))) = true.
Proof.
  eexists. rewrite Config_unfold. split; [reflexivity|].
  split; [apply decodeConfig_configLine_coerced|].
  split; apply scans_ValidString, coerceLoop_scans.
Qed.

(** X17: the round trip is exact for the valid configurations and for no
    other: the decoder reads the configuration itself from the text Config
    returns exactly when both addresses are valid UTF-8. *)
Theorem Config_round_trip_exactly_when_valid s :
  exists payload,
    outcome (Config s) = Returned payload /\
    (decodeConfig payload = Some (config s)
     <-> utf8.ValidString (StdoutAddr (config s)) = true /\
         utf8.ValidString (StderrAddr (config s)) = true).
Proof.
  eexists. rewrite Config_unfold. split; [reflexivity|].
  rewrite decodeConfig_configLine_coerced, <- !coerceUTF8_fixed.
  destruct (config s) as [out err]. cbn [StdoutAddr StderrAddr]. split.
  - intros [= Hout Herr]. now split.
  - intros [-> ->]. reflexivity.
Qed.

(** X18: two bootstraps whose addresses are valid UTF-8 and for which
    Config returns the same text have the same configuration. *)
Theorem Config_injective_on_valid s1 s2 :
  utf8.ValidString (StdoutAddr (config s1)) = true ->
  utf8.ValidString (StderrAddr (config s1)) = true ->
  utf8.ValidString (StdoutAddr (config s2)) = true ->
  utf8.ValidString (StderrAddr (config s2)) = true ->
  outcome (Config s1) = outcome (Config s2) ->
  config s1 = config s2.
Proof.
  intros Hout1 Herr1 Hout2 Herr2 Heq.
  rewrite !Config_unfold in Heq. cbn [outcome] in Heq.
  assert (Hline : configLine (config s1) ++ [LF] = configLine (config s2) ++ [LF])
    by congruence.
  pose proof (decodeConfig_configLine _ Hout1 Herr1) as H1.
  pose proof (decodeConfig_configLine _ Hout2 Herr2) as H2.
  rewrite Hline, H2 in H1. now injection H1.
Qed.

End ConfigReadBack.

(** ** The further properties on the example bootstraps *)

Lemma Init_reports_the_plugin_error_witness :
  rangeOrder (Plugins crowdBootstrap) crowdEntries /\
  attached (demoFactory (serverOptions (TLS crowdBootstrap)))
           [(str "echo", strictPlugin (str "echo"))] (Some [str "echo"]) /\
  outcome (Init demoTable crowdBootstrap crowdEntries)
  = Returned (Some (str "error registring " ++ strconv.Quote demoTable (str "kv")
                    ++ str ": " ++ str "no store")) /\
  server (after (Init demoTable crowdBootstrap crowdEntries)) = Some [str "echo"] /\
  calls (Init demoTable crowdBootstrap crowdEntries)
  = CallServer (serverOptions (TLS crowdBootstrap))
    :: map CallGRPCServer (map fst [(str "echo", strictPlugin (str "echo"))])
       ++ [CallGRPCServer (str "kv")].
Proof.
  split; [exact rangeOrder_crowd|]. split; [exact attached_echo|].
  apply (Init_reports_the_plugin_error demoTable crowdBootstrap demoFactory
           [(str "echo", strictPlugin (str "echo"))] (Some [str "echo"]) (str "kv")
           (failingMethods (str "no store")) [(str "bad", OtherPlugin)]
           (Some [str "echo"]) (str "no store")).
  - reflexivity.
  - exact attached_echo.
  - apply runs_on_server. reflexivity.
Defined.

Lemma lookup_mixed_bad : Plugins mixedBootstrap !! str "bad" = Some OtherPlugin.
Proof.
  apply (rangeOrder_lookup mixedBootstrap mixedEntries); [exact rangeOrder_mixed|].
  right. left.
Qed.

Lemma Init_may_report_any_offender_witness :
  exists entries,
    rangeOrder (Plugins mixedBootstrap) entries /\
    outcome (Init demoTable mixedBootstrap entries)
    = Returned (Some (strconv.Quote demoTable (str "bad")
                      ++ str " is not a GRPC-compatibile plugin")) /\
    calls (Init demoTable mixedBootstrap entries)
    = [CallServer (serverOptions (TLS mixedBootstrap))] /\
    server (after (Init demoTable mixedBootstrap entries))
    = demoFactory (serverOptions (TLS mixedBootstrap)).
Proof.
  apply (Init_may_report_any_offender demoTable mixedBootstrap demoFactory
           (str "bad") OtherPlugin).
  - reflexivity.
  - exact lookup_mixed_bad.
  - reflexivity.
Defined.

Lemma Init_success_means_all_registered_witness :
  exists newServer,
    Server namedBootstrap = Some newServer /\
    attached (newServer (serverOptions (TLS namedBootstrap))) namedEntries
             (server (after (Init demoTable namedBootstrap namedEntries))) /\
    calls (Init demoTable namedBootstrap namedEntries)
    = CallServer (serverOptions (TLS namedBootstrap))
      :: map CallGRPCServer (map fst namedEntries) /\
    (forall k raw, Plugins namedBootstrap !! k = Some raw ->
       (k, raw) ∈ namedEntries /\
       (exists p, assertGRPCPlugin raw = Some p) /\
       CallGRPCServer k ∈ calls (Init demoTable namedBootstrap namedEntries)).
Proof.
  apply (Init_success_means_all_registered demoTable namedBootstrap namedEntries).
  - exact rangeOrder_named.
  - reflexivity.
Defined.

Lemma Init_after_Init_witness :
  Init demoTable (after (Init demoTable mixedBootstrap mixedEntries)) mixedEntries
  = Init demoTable mixedBootstrap mixedEntries.
Proof.
  exact (Init_after_Init demoTable mixedBootstrap demoFactory mixedEntries mixedEntries
           eq_refl).
Defined.

Lemma Init_with_DefaultGRPCServer_witness :
  exists opts cs,
    opts = [Creds (NewTLS tt)] /\
    calls (Init demoTable defaultBootstrap badEntries) = CallServer opts :: cs /\
    (exists srv, server (after (Init demoTable defaultBootstrap badEntries)) = Some srv) /\
    (forall err,
       outcome (Init demoTable defaultBootstrap badEntries) = Returned err ->
       loopResult demoTable (Some (demoNewServer opts)) badEntries
                  (server (after (Init demoTable defaultBootstrap badEntries))) err) /\
    (badEntries = [] ->
     server (after (Init demoTable defaultBootstrap badEntries))
     = Some (demoNewServer opts)).
Proof.
  exact (Init_with_DefaultGRPCServer demoTable demoNewServer defaultBootstrap badEntries
           eq_refl).
Defined.

Lemma Init_error_text_witness :
  (exists newServer pre k raw post ptr,
     Server crowdBootstrap = Some newServer /\
     crowdEntries = pre ++ (k, raw) :: post /\
     attached (newServer (serverOptions (TLS crowdBootstrap))) pre ptr /\
     ((assertGRPCPlugin raw = None /\
       server (after (Init demoTable crowdBootstrap crowdEntries)) = ptr /\
       str "error registring " ++ [DQ] ++ str "kv" ++ [DQ] ++ str ": no store"
       = strconv.Quote demoTable k ++ str " is not a GRPC-compatibile plugin" /\
       Forall printable
         (str "error registring " ++ [DQ] ++ str "kv" ++ [DQ] ++ str ": no store"))
      \/
      (exists p e,
         assertGRPCPlugin raw = Some p /\
         methodRuns p ptr (server (after (Init demoTable crowdBootstrap crowdEntries)))
                    (Some e) /\
         str "error registring " ++ [DQ] ++ str "kv" ++ [DQ] ++ str ": no store"
         = (str "error registring " ++ strconv.Quote demoTable k ++ str ": ") ++ e /\
         Forall printable (str "error registring "
                           ++ strconv.Quote demoTable k ++ str ": "))))
  /\
  (exists newServer pre k raw post ptr,
     Server crowdBootstrap = Some newServer /\
     crowdEntriesAlt = pre ++ (k, raw) :: post /\
     attached (newServer (serverOptions (TLS crowdBootstrap))) pre ptr /\
     ((assertGRPCPlugin raw = None /\
       server (after (Init demoTable crowdBootstrap crowdEntriesAlt)) = ptr /\
       [DQ] ++ str "bad" ++ [DQ] ++ str " is not a GRPC-compatibile plugin"
       = strconv.Quote demoTable k ++ str " is not a GRPC-compatibile plugin" /\
       Forall printable
         ([DQ] ++ str "bad" ++ [DQ] ++ str " is not a GRPC-compatibile plugin"))
      \/
      (exists p e,
         assertGRPCPlugin raw = Some p /\
         methodRuns p ptr (server (after (Init demoTable crowdBootstrap crowdEntriesAlt)))
                    (Some e) /\
         [DQ] ++ str "bad" ++ [DQ] ++ str " is not a GRPC-compatibile plugin"
         = (str "error registring " ++ strconv.Quote demoTable k ++ str ": ") ++ e /\
         Forall printable (str "error registring "
                           ++ strconv.Quote demoTable k ++ str ": ")))).
Proof.
  split.
  - exact (Init_error_text demoTable crowdBootstrap crowdEntries
             (str "error registring " ++ [DQ] ++ str "kv" ++ [DQ] ++ str ": no store")
             eq_refl).
  - exact (Init_error_text demoTable crowdBootstrap crowdEntriesAlt
             ([DQ] ++ str "bad" ++ [DQ] ++ str " is not a GRPC-compatibile plugin")
             eq_refl).
Defined.

Lemma Config_copies_plain_addresses_witness :
  outcome (Config plainBootstrap)
  = Returned (str "{" ++ [DQ] ++ str "stdout_addr" ++ [DQ] ++ str ":"
              ++ [DQ] ++ str "127.0.0.1:10000" ++ [DQ]
              ++ str "," ++ [DQ] ++ str "stderr_addr" ++ [DQ] ++ str ":"
              ++ [DQ] ++ str "127.0.0.1:10001" ++ [DQ]
              ++ str "}" ++ [LF]).
Proof.
  exact (Config_copies_plain_addresses plainBootstrap eq_refl eq_refl).
Defined.

Lemma Config_injective_on_valid_witness :
  config plainBootstrap = config plainTLSBootstrap.
Proof.
  exact (Config_injective_on_valid plainBootstrap plainTLSBootstrap
           eq_refl eq_refl eq_refl eq_refl eq_refl).
Defined.

(** ** Config applies no encoding of its own *)


